(** * UltraHonk proof and verification-key layout: a shallow embedding of
    [scripts/validate_theory.py]

    The script decodes a verification key (1888 bytes) and a proof blob whose
    length depends on [(log_n, is_zk)], and spot-checks the first sumcheck
    round over the BN254 scalar field.  Python integers are unbounded, so they
    are [Z]; [bytes] values are [list byte]; raised exceptions are the
    [Raise] case of [pyres]; what the script prints in the sumcheck check is
    returned as a list of [report] items. *)

From Stdlib Require Import ZArith List Bool Lia Znumtheory Permutation.
From Stdlib Require Import Strings.Byte.
From Stdlib Require Import Zmod.ZmodInv.
Import ListNotations.
Open Scope Z_scope.

(** ** Python values and exceptions *)

Definition bytes := list byte.

(** The three [assert] statements of the script, with the values their
    messages carry. *)
Inductive assertion : Type :=
| VkLength (actual : Z)              (* "Expected 1888 bytes, got {len(data)}" *)
| ProofAlignment                     (* "Proof must be multiple of 32 bytes" *)
| FrCount (expected actual : Z).     (* "Expected {expected} Fr elements, got {actual}" *)

Inductive exn : Type :=
| AssertionError (a : assertion)
| IndexError
| OverflowError
| ZeroDivisionError.

(** [ArithmeticError] is the base class of [OverflowError] and
    [ZeroDivisionError]. *)
Definition is_ArithmeticError (e : exn) : bool :=
  match e with
  | OverflowError | ZeroDivisionError => true
  | _ => false
  end.

Inductive pyres (A : Type) : Type :=
| Ok (a : A)
| Raise (e : exn).
Arguments Ok {A} a.
Arguments Raise {A} e.

Definition bind {A B} (r : pyres A) (k : A -> pyres B) : pyres B :=
  match r with
  | Ok a => k a
  | Raise e => Raise e
  end.

Notation "x <- r ;; k" := (bind r (fun x => k))
  (at level 61, r at next level, right associativity).

(** [len(l)] *)
Definition len {A} (l : list A) : Z := Z.of_nat (length l).

(** [range(n)] and [range(a, b)] *)
Definition py_range (a b : Z) : list Z :=
  map (fun k => a + Z.of_nat k) (seq 0 (Z.to_nat (b - a))).

(** A slice bound as Python normalises it: a negative bound counts from the
    end, and the result is clamped to [0, len]. *)
Definition slice_bound (n i : Z) : Z :=
  if i <? 0 then Z.max 0 (i + n) else Z.min i n.

(** [l[a:b]] *)
Definition py_slice {A} (l : list A) (a b : Z) : list A :=
  let lo := slice_bound (len l) a in
  let hi := slice_bound (len l) b in
  firstn (Z.to_nat (hi - lo)) (skipn (Z.to_nat lo) l).

(** [l[i]], which raises [IndexError] out of range *)
Definition py_index {A} (l : list A) (i : Z) : pyres A :=
  let j := if i <? 0 then i + len l else i in
  if j <? 0 then Raise IndexError
  else match nth_error l (Z.to_nat j) with
       | Some x => Ok x
       | None => Raise IndexError
       end.

(** ** Integers and bytes *)

Definition byte_val (b : byte) : Z := Z.of_N (Byte.to_N b).

Definition byte_of_Z (z : Z) : byte :=
  match Byte.of_N (Z.to_N z) with
  | Some b => b
  | None => x00
  end.

(** [int.from_bytes(b, 'big')] *)
Definition int_from_bytes (b : bytes) : Z :=
  fold_left (fun acc x => acc * 256 + byte_val x) b 0.

Fixpoint be_digits (n : nat) (x : Z) : bytes :=
  match n with
  | O => []
  | S k => be_digits k (x / 256) ++ [byte_of_Z (x mod 256)]
  end.

(** [x.to_bytes(n, 'big')]: [OverflowError] when [x] is negative or does not
    fit in [n] bytes. *)
Definition int_to_bytes (x : Z) (n : nat) : pyres bytes :=
  if (x <? 0) || (256 ^ Z.of_nat n <=? x) then Raise OverflowError
  else Ok (be_digits n x).

(** [pow(a, e, m)] for an exponent [e >= 0] and a modulus [m > 0], by
    squaring along the bits of the exponent. *)
Fixpoint pow_mod_pos (a : Z) (e : positive) (m : Z) : Z :=
  match e with
  | xH => a mod m
  | xO e' => let r := pow_mod_pos a e' m in (r * r) mod m
  | xI e' => let r := pow_mod_pos a e' m in (((r * r) mod m) * a) mod m
  end.

Definition py_pow (a e m : Z) : Z :=
  match e with
  | Zpos p => pow_mod_pos a p m
  | _ => 1 mod m
  end.

(** ** Field arithmetic (lines 19-44) *)

Definition BN254_R : Z :=
  0x30644e72e131a029b85045b68181585d2833e84879b9709143e1f593f0000001.

Definition fr_from_bytes (b : bytes) : Z := int_from_bytes b mod BN254_R.

Definition fr_to_bytes (x : Z) : pyres bytes := int_to_bytes (x mod BN254_R) 32.

Definition fr_add (a b : Z) : Z := (a + b) mod BN254_R.

Definition fr_sub (a b : Z) : Z := (a - b) mod BN254_R.

Definition fr_mul (a b : Z) : Z := (a * b) mod BN254_R.

Definition fr_inv (a : Z) : Z := py_pow a (BN254_R - 2) BN254_R.

Definition fr_div (a b : Z) : Z := fr_mul a (fr_inv b).

(** ** Verification key (lines 46-77) *)

Module VerificationKey.

Record t : Type := mk {
  log2_circuit_size : Z;
  log2_domain_size : Z;
  num_public_inputs : Z;
  commitments : list bytes
}.

Definition from_bytes (data : bytes) : pyres t :=
  if len data =? 1888 then
    let log2_circuit_size := int_from_bytes (py_slice data 0 32) in
    let log2_domain_size := int_from_bytes (py_slice data 32 64) in
    let num_public_inputs := int_from_bytes (py_slice data 64 96) in
    let commitments :=
      fold_left
        (fun commitments i =>
           let offset := 96 + i * 64 in
           commitments ++ [py_slice data offset (offset + 64)])
        (py_range 0 28) [] in
    Ok (mk log2_circuit_size log2_domain_size num_public_inputs commitments)
  else Raise (AssertionError (VkLength (len data))).

Definition circuit_size (vk : t) : Z := 2 ^ log2_circuit_size vk.

End VerificationKey.

(** ** Proof (lines 79-181) *)

Module Proof.

Record t : Type := mk {
  data : list bytes;
  log_n : Z;
  is_zk : bool
}.

Definition expected_fr_count (log_n : Z) (is_zk : bool) : Z :=
  let size := 0 in
  (* pairing point object *)
  let size := size + 16 in
  (* wire commitments *)
  let size := size + 16 in
  (* libra concat + sum *)
  let size := if is_zk then size + 3 else size in
  (* sumcheck univariates *)
  let univariate_len := if is_zk then 9 else 8 in
  let size := size + log_n * univariate_len in
  (* sumcheck evaluations *)
  let size := size + (if is_zk then 41 else 40) in
  (* libra post-sumcheck data *)
  let size := if is_zk then size + 8 else size in
  (* gemini fold commitments *)
  let size := size + (log_n - 1) * 2 in
  (* gemini A evaluations *)
  let size := size + log_n in
  (* small IPA *)
  let size := if is_zk then size + 2 else size in
  (* Shplonk Q + KZG W *)
  let size := size + 4 in
  (* extra protocol data *)
  let size := size + (if is_zk then 2 else 1) in
  size.

Definition from_bytes (data : bytes) (log_n : Z) (is_zk : bool) : pyres t :=
  if len data mod 32 =? 0 then
    let expected := expected_fr_count log_n is_zk in
    let actual := len data / 32 in
    if actual =? expected then
      let elements :=
        fold_left
          (fun elements i => elements ++ [py_slice data (i * 32) ((i + 1) * 32)])
          (py_range 0 actual) [] in
      Ok (mk elements log_n is_zk)
    else Raise (AssertionError (FrCount expected actual))
  else Raise (AssertionError ProofAlignment).

Definition pairing_point_object (p : t) : list bytes := py_slice (data p) 0 16.

Definition wire_commitment (p : t) (idx : Z) : pyres bytes :=
  let offset := 16 + idx * 2 in
  x <- py_index (data p) offset ;;
  y <- py_index (data p) (offset + 1) ;;
  Ok (x ++ y).

Definition libra_sum (p : t) : pyres (option bytes) :=
  if negb (is_zk p) then Ok None
  else
    let offset := 16 + 16 + 2 in
    x <- py_index (data p) offset ;;
    Ok (Some x).

Definition sumcheck_univariate (p : t) (round : Z) : list bytes :=
  let base := 16 + 16 in
  let base := if is_zk p then base + 3 else base in
  let univariate_len := if is_zk p then 9 else 8 in
  let offset := base + round * univariate_len in
  py_slice (data p) offset (offset + univariate_len).

Definition sumcheck_evaluations (p : t) : list bytes :=
  let base := 16 + 16 in
  let base := if is_zk p then base + 3 else base in
  let univariate_len := if is_zk p then 9 else 8 in
  let base := base + log_n p * univariate_len in
  let num_evals := if is_zk p then 41 else 40 in
  py_slice (data p) base (base + num_evals).

End Proof.

(** ** Parameter recovery in [validate_proof_structure] (lines 277-340) *)

(** The inner loop, [for try_log in range(4, 30)]: the first matching
    [try_log] is assigned and [break] leaves this loop only. *)
Fixpoint detect_log (size : Z) (try_zk : bool) (logs : list Z) (cfg : Z * bool)
  : Z * bool :=
  match logs with
  | [] => cfg
  | try_log :: logs' =>
      if Proof.expected_fr_count try_log try_zk * 32 =? size
      then (try_log, try_zk)
      else detect_log size try_zk logs' cfg
  end.

(** The outer loop, [for try_zk in [True, False]], threading
    [(log_n, is_zk)]. *)
Definition detect_config (size : Z) (cfg : Z * bool) : Z * bool :=
  fold_left (fun cfg try_zk => detect_log size try_zk (py_range 4 30) cfg)
            [true; false] cfg.

(** [validate_proof_structure] on the bytes read from the proof file, without
    its printing: the accessors it calls are kept because two of them index
    the element list and can raise. *)
Definition validate_proof_structure (data : bytes) (log_n : Z) (is_zk : bool)
  : pyres Proof.t :=
  let expected_fr := Proof.expected_fr_count log_n is_zk in
  let expected_bytes := expected_fr * 32 in
  let '(log_n, is_zk) :=
    if negb (len data =? expected_bytes)
    then detect_config (len data) (log_n, is_zk)
    else (log_n, is_zk) in
  proof <- Proof.from_bytes data log_n is_zk ;;
  _ <- Proof.wire_commitment proof 0 ;;
  _ <- Proof.wire_commitment proof 1 ;;
  _ <- Proof.wire_commitment proof 2 ;;
  _ <- (if is_zk then Proof.libra_sum proof else Ok None) ;;
  Ok proof.

(** ** Sumcheck round zero (lines 343-380) *)

(** What the check prints, as data. *)
Inductive report : Type :=
| RoundZero (u0 u1 sum_u : Z)        (* the two coefficients and their sum *)
| LibraSum (ls : Z)                  (* "libra_sum = ..." *)
| SumEqualsLibraSum                  (* "Sum equals libra_sum directly" *)
| ImpliedChallenge (c : Z)           (* "Implied libra_challenge = sum / libra_sum" *)
| SumIsZero                          (* "Sum equals 0 (correct for non-ZK)" *)
| SumNonZero.                        (* "Sum is non-zero for non-ZK proof!" *)

Definition validate_sumcheck_round_zero (proof : Proof.t) (is_zk : bool)
  : pyres (list report) :=
  let univariate := Proof.sumcheck_univariate proof 0 in
  b0 <- py_index univariate 0 ;;
  let u0 := fr_from_bytes b0 in
  b1 <- py_index univariate 1 ;;
  let u1 := fr_from_bytes b1 in
  let sum_u := fr_add u0 u1 in
  let out := [RoundZero u0 u1 sum_u] in
  if is_zk then
    libra_sum <- Proof.libra_sum proof ;;
    match libra_sum with
    | Some ((_ :: _) as libra_sum) =>   (* [if libra_sum:] neither None nor b'' *)
        let ls := fr_from_bytes libra_sum in
        let out := out ++ [LibraSum ls] in
        if sum_u =? ls then Ok (out ++ [SumEqualsLibraSum])
        else if negb (ls =? 0) then
               let implied_challenge := fr_div sum_u ls in
               Ok (out ++ [ImpliedChallenge implied_challenge])
             else Ok out
    | _ => Ok out
    end
  else
    if sum_u =? 0 then Ok (out ++ [SumIsZero])
    else Ok (out ++ [SumNonZero]).

(** ** Primality certificates

    [fr_inv] is an inverse only because [BN254_R] is prime.  Primality is
    established by a checked certificate: trial division for small numbers
    and the Pocklington criterion, applied to one or two prime factors of
    [n - 1] whose product exceeds the square root of [n], for large ones. *)

Module Primality.

Fixpoint trial (fuel : nat) (n d : Z) : bool :=
  match fuel with
  | O => n <? d * d
  | S fuel' => (n <? d * d) || (negb (n mod d =? 0) && trial fuel' n (d + 1))
  end.

Definition trial_prime (n : Z) : bool :=
  (1 <? n) && trial (Z.to_nat (Z.sqrt n)) n 2.

Inductive cert : Type :=
| Trial
| Pock1 (a q : Z) (c : cert)
| Pock2 (a q1 q2 : Z) (c1 c2 : cert).

Definition pock_ok (n a q : Z) : bool :=
  ((n - 1) mod q =? 0) && (Z.gcd (py_pow a ((n - 1) / q) n - 1) n =? 1).

Fixpoint check_cert (n : Z) (c : cert) : bool :=
  match c with
  | Trial => trial_prime n
  | Pock1 a q c =>
      (1 <? n) && (py_pow a (n - 1) n =? 1) && pock_ok n a q
      && (n <? (q + 1) * (q + 1)) && check_cert q c
  | Pock2 a q1 q2 c1 c2 =>
      (1 <? n) && (py_pow a (n - 1) n =? 1) && pock_ok n a q1 && pock_ok n a q2
      && (Z.gcd q1 q2 =? 1) && (n <? (q1 * q2 + 1) * (q1 * q2 + 1))
      && check_cert q1 c1 && check_cert q2 c2
  end.

(** [BN254_R - 1] is divisible by the primes 1670836401704629 and
    13818364434197438864469338081, whose product exceeds the square root
    of [BN254_R]. *)
Definition BN254_R_cert : cert :=
  Pock2 2 1670836401704629 13818364434197438864469338081
    (Pock1 2 5156902474397
       (Pock1 2 12048837557 (Pock2 2 661 93001 Trial Trial)))
    (Pock1 2 65865678001877903
       (Pock1 2 639533339 (Pock2 2 853 1637 Trial Trial))).

End Primality.

(** ** Concrete inputs used in examples *)

Definition zero_bytes (n : Z) : bytes := repeat x00 (Z.to_nat n).

Definition zero_fr : bytes := repeat x00 32.

Definition one_fr : bytes := repeat x00 31 ++ [x01].

Definition two_fr : bytes := repeat x00 31 ++ [x02].

Definition ones_fr : bytes := repeat xff 32.

(** A ZK proof for [log_n = 2] (114 elements) whose libra sum is 0 and whose
    round-0 univariate starts with the coefficients 1 and 0. *)
Definition proof_libra_zero : bytes :=
  concat (repeat zero_fr 35 ++ [one_fr] ++ repeat zero_fr 78).

(** The same with libra sum 2: the implied multiplier is [1 / 2]. *)
Definition proof_libra_two : bytes :=
  concat (repeat zero_fr 34 ++ [two_fr; one_fr] ++ repeat zero_fr 78).

(** What [Proof.from_bytes] returns on these two buffers. *)
Definition decoded_libra_zero : Proof.t :=
  Proof.mk (repeat zero_fr 35 ++ [one_fr] ++ repeat zero_fr 78) 2 true.

Definition decoded_libra_two : Proof.t :=
  Proof.mk (repeat zero_fr 34 ++ [two_fr; one_fr] ++ repeat zero_fr 78) 2 true.

(** A verification key whose every byte is [0xff]. *)
Definition vk_all_ones : bytes := repeat xff 1888.

(** ** Hashing and challenges (lines 184-227) *)

(** [reduce_to_fr(h)] *)
Definition reduce_to_fr (h : bytes) : pyres bytes :=
  let value := int_from_bytes h in
  let reduced := value mod BN254_R in
  int_to_bytes reduced 32.

(** [compute_vk_hash(vk)].  [keccak256] picks its implementation at run time
    (pycryptodome's Keccak, or [hashlib.sha3_256] when the import fails), so
    the digest function is a parameter. *)
Definition compute_vk_hash (keccak256 : bytes -> bytes)
           (vk : VerificationKey.t) : pyres bytes :=
  let data := [] in
  b <- int_to_bytes (VerificationKey.log2_circuit_size vk) 32 ;;
  let data := data ++ b in
  b <- int_to_bytes (VerificationKey.log2_domain_size vk) 32 ;;
  let data := data ++ b in
  b <- int_to_bytes (VerificationKey.num_public_inputs vk) 32 ;;
  let data := data ++ b in
  let data :=
    fold_left (fun data commitment => data ++ commitment)
              (VerificationKey.commitments vk) data in
  let hash_result := keccak256 data in
  reduce_to_fr hash_result.

(** [split_challenge(challenge)] *)
Definition split_challenge (challenge : bytes) : pyres (bytes * bytes) :=
  let value := int_from_bytes challenge in
  let lo := Z.land value (Z.shiftl 1 127 - 1) in
  let hi := Z.land (Z.shiftr value 127) (Z.shiftl 1 127 - 1) in
  lo_bytes <- int_to_bytes lo 32 ;;
  hi_bytes <- int_to_bytes hi 32 ;;
  Ok (lo_bytes, hi_bytes).

(** ** Public inputs (lines 383-399) *)

(** [validate_public_inputs] on the bytes read from the file: the expected
    size it prints, and the [(value, chunk)] pair printed for each input. *)
Definition validate_public_inputs (data : bytes) (vk : VerificationKey.t)
  : Z * list (Z * bytes) :=
  let expected := VerificationKey.num_public_inputs vk * 32 in
  let num_inputs := len data / 32 in
  let lines :=
    fold_left
      (fun lines i =>
         let pi := py_slice data (i * 32) ((i + 1) * 32) in
         let value := int_from_bytes pi in
         lines ++ [(value, pi)])
      (py_range 0 num_inputs) [] in
  (expected, lines).

(** * Properties *)

(** ** Lists, ranges and slices *)

Lemma fold_left_snoc_map {A B} (f : A -> B) (l : list A) (acc : list B) :
  fold_left (fun acc i => acc ++ [f i]) l acc = acc ++ map f l.
Proof.
  revert acc. induction l as [|x l IH]; intros acc; cbn [fold_left map].
  - now rewrite app_nil_r.
  - now rewrite IH, <- app_assoc.
Qed.

Lemma length_py_range a b : length (py_range a b) = Z.to_nat (b - a).
Proof. unfold py_range. now rewrite length_map, length_seq. Qed.

Lemma nth_error_py_range a b i :
  (i < Z.to_nat (b - a))%nat -> nth_error (py_range a b) i = Some (a + Z.of_nat i).
Proof.
  intros Hi. unfold py_range. rewrite nth_error_map, nth_error_seq.
  apply Nat.ltb_lt in Hi. now rewrite Hi.
Qed.

Lemma py_slice_in_range {A} (l : list A) a b :
  0 <= a <= b -> b <= len l ->
  py_slice l a b = firstn (Z.to_nat (b - a)) (skipn (Z.to_nat a) l).
Proof.
  intros Hab Hb. unfold py_slice, slice_bound. cbv zeta.
  destruct (Z.ltb_spec a 0); [lia|]. destruct (Z.ltb_spec b 0); [lia|].
  rewrite (Z.min_l a), (Z.min_l b) by lia. reflexivity.
Qed.

Lemma py_index_nth {A} (l : list A) i x :
  0 <= i -> nth_error l (Z.to_nat i) = Some x -> py_index l i = Ok x.
Proof.
  intros Hi Hx. unfold py_index. cbv zeta.
  assert (E : (i <? 0) = false) by (apply Z.ltb_ge; lia).
  now rewrite E, E, Hx.
Qed.

Section Chunks.

Context {A : Type}.
Variable c : nat.

Lemma firstn_plus (a b : nat) (l : list A) :
  firstn (a + b) l = firstn a l ++ firstn b (skipn a l).
Proof.
  revert l. induction a as [|a IH]; intros [|x l]; cbn; trivial.
  - now rewrite firstn_nil.
  - now rewrite IH.
Qed.

Lemma concat_chunks_from (l : list A) (m k : nat) :
  concat (map (fun i => firstn c (skipn (c * i) l)) (seq k m))
  = firstn (c * m) (skipn (c * k) l).
Proof.
  revert k. induction m as [|m IH]; intros k.
  - now rewrite Nat.mul_0_r.
  - cbn [seq map concat]. rewrite IH.
    replace (c * S m)%nat with (c + c * m)%nat by lia.
    rewrite firstn_plus, skipn_skipn.
    now replace (c * S k)%nat with (c + c * k)%nat by lia.
Qed.

Lemma concat_chunks (l : list A) (m : nat) :
  length l = (c * m)%nat ->
  concat (map (fun i => firstn c (skipn (c * i) l)) (seq 0 m)) = l.
Proof.
  intros Hl. rewrite concat_chunks_from, Nat.mul_0_r.
  cbn [skipn]. rewrite <- Hl. apply firstn_all.
Qed.

Lemma length_chunk (l : list A) (i : nat) :
  (c * i + c <= length l)%nat -> length (firstn c (skipn (c * i) l)) = c.
Proof. intros H. rewrite length_firstn, length_skipn. lia. Qed.

End Chunks.

(** ** The layout calculator *)

Lemma expected_fr_count_closed log_n is_zk :
  Proof.expected_fr_count log_n is_zk
  = if is_zk then 12 * log_n + 90 else 11 * log_n + 75.
Proof. unfold Proof.expected_fr_count. destruct is_zk; cbv zeta; lia. Qed.

(** ** The proof decoder *)

Lemma len_nonneg {A} (l : list A) : 0 <= len l.
Proof. unfold len. lia. Qed.

Lemma proof_chunks (data : bytes) n :
  len data = 32 * n ->
  fold_left
    (fun elements i => elements ++ [py_slice data (i * 32) ((i + 1) * 32)])
    (py_range 0 n) []
  = map (fun i => firstn 32 (skipn (32 * i) data)) (seq 0 (Z.to_nat n)).
Proof.
  intros Hlen. rewrite fold_left_snoc_map. cbn [app].
  unfold py_range. rewrite map_map, Z.sub_0_r.
  apply map_ext_in. intros k Hk. apply in_seq in Hk.
  rewrite py_slice_in_range by lia.
  f_equal; [|f_equal]; lia.
Qed.

Lemma proof_from_bytes_ok data log_n is_zk :
  len data = 32 * Proof.expected_fr_count log_n is_zk ->
  Proof.from_bytes data log_n is_zk
  = Ok (Proof.mk
          (map (fun i => firstn 32 (skipn (32 * i) data))
               (seq 0 (Z.to_nat (Proof.expected_fr_count log_n is_zk))))
          log_n is_zk).
Proof.
  intros Hlen. unfold Proof.from_bytes. cbv zeta.
  set (e := Proof.expected_fr_count log_n is_zk) in *.
  assert (Hdiv : len data / 32 = e) by (rewrite Hlen, Z.mul_comm; apply Z.div_mul; lia).
  assert (Hmod : len data mod 32 = 0) by (rewrite Hlen, Z.mul_comm; apply Z.mod_mul; lia).
  rewrite Hmod, Hdiv, !Z.eqb_refl, proof_chunks by exact Hlen.
  reflexivity.
Qed.

Lemma proof_from_bytes_misaligned data log_n is_zk :
  len data mod 32 <> 0 ->
  Proof.from_bytes data log_n is_zk = Raise (AssertionError ProofAlignment).
Proof.
  intros H. unfold Proof.from_bytes. apply Z.eqb_neq in H. now rewrite H.
Qed.

Lemma proof_from_bytes_count data log_n is_zk :
  len data mod 32 = 0 ->
  len data / 32 <> Proof.expected_fr_count log_n is_zk ->
  Proof.from_bytes data log_n is_zk
  = Raise (AssertionError
             (FrCount (Proof.expected_fr_count log_n is_zk) (len data / 32))).
Proof.
  intros H0 H. unfold Proof.from_bytes. cbv zeta.
  apply Z.eqb_neq in H. now rewrite H0, H.
Qed.

Lemma nth_error_chunks (data : bytes) (n i : nat) :
  (i < n)%nat ->
  nth_error (map (fun i => firstn 32 (skipn (32 * i) data)) (seq 0 n)) i
  = Some (firstn 32 (skipn (32 * i) data)).
Proof.
  intros Hi. rewrite nth_error_map, nth_error_seq.
  apply Nat.ltb_lt in Hi. now rewrite Hi.
Qed.

(** C1.  For [log_n = 17] and [is_zk = true] the expected element count is
    294, the sum of the section sizes
    [16 + 16 + 3 + 17*9 + 41 + 8 + 16*2 + 17 + 2 + 4 + 2]; every buffer of
    9408 bytes decodes with these parameters, into 294 elements, and every
    buffer of 9407 or 9409 bytes is refused. *)
Theorem expected_count_17_zk :
  Proof.expected_fr_count 17 true = 294
  /\ 16 + 16 + 3 + 17 * 9 + 41 + 8 + 16 * 2 + 17 + 2 + 4 + 2 = 294
  /\ (forall data, len data = 9408 ->
        exists p, Proof.from_bytes data 17 true = Ok p
                  /\ len (Proof.data p) = 294)
  /\ (forall data, len data = 9407 \/ len data = 9409 ->
        exists e, Proof.from_bytes data 17 true = Raise e).
Proof.
  split; [reflexivity|]. split; [reflexivity|]. split.
  - intros data Hlen.
    eexists. split; [apply proof_from_bytes_ok; rewrite Hlen; reflexivity|].
    cbn [Proof.data]. unfold len. rewrite length_map, length_seq. reflexivity.
  - intros data Hlen. eexists. apply proof_from_bytes_misaligned.
    destruct Hlen as [-> | ->]; discriminate.
Qed.

Lemma expected_count_17_zk_witness :
  (exists p, Proof.from_bytes (zero_bytes 9408) 17 true = Ok p
             /\ len (Proof.data p) = 294)
  /\ (exists e, Proof.from_bytes (zero_bytes 9407) 17 true = Raise e)
  /\ (exists e, Proof.from_bytes (zero_bytes 9409) 17 true = Raise e).
Proof.
  destruct expected_count_17_zk as (_ & _ & Hok & Hbad).
  split; [|split].
  - apply Hok. vm_compute. reflexivity.
  - apply Hbad. left. vm_compute. reflexivity.
  - apply Hbad. right. vm_compute. reflexivity.
Defined.

(** C3.  Decoding a proof fails on the alignment assertion for every buffer
    whose length is not a multiple of 32, fails on the element-count
    assertion (which carries both counts) for every aligned buffer of another
    size than expected, and for a buffer of exactly
    [32 * expected_fr_count log_n is_zk] bytes returns the buffer cut into
    consecutive 32-byte chunks in order.  A failure is a [Raise], which
    carries no proof structure. *)
Theorem proof_from_bytes_spec (data : bytes) (log_n : Z) (is_zk : bool) :
  let expected := Proof.expected_fr_count log_n is_zk in
  (len data mod 32 <> 0 ->
   Proof.from_bytes data log_n is_zk = Raise (AssertionError ProofAlignment))
  /\ (len data mod 32 = 0 -> len data / 32 <> expected ->
      Proof.from_bytes data log_n is_zk
      = Raise (AssertionError (FrCount expected (len data / 32))))
  /\ (len data = 32 * expected ->
      exists p,
        Proof.from_bytes data log_n is_zk = Ok p
        /\ Proof.log_n p = log_n /\ Proof.is_zk p = is_zk
        /\ len (Proof.data p) = expected
        /\ concat (Proof.data p) = data
        /\ Forall (fun c => len c = 32) (Proof.data p)
        /\ forall i, (i < length (Proof.data p))%nat ->
             nth_error (Proof.data p) i = Some (firstn 32 (skipn (32 * i) data))).
Proof.
  intros expected. split; [|split].
  - apply proof_from_bytes_misaligned.
  - apply proof_from_bytes_count.
  - intros Hlen. pose proof (len_nonneg data) as Hpos.
    eexists. split; [apply proof_from_bytes_ok; exact Hlen|].
    cbn [Proof.data Proof.log_n Proof.is_zk]. fold expected.
    assert (Hnat : length data = (32 * Z.to_nat expected)%nat)
      by (unfold len in Hlen; lia).
    repeat split.
    + unfold len. rewrite length_map, length_seq. lia.
    + apply concat_chunks. exact Hnat.
    + apply Forall_forall. intros c Hc.
      apply in_map_iff in Hc. destruct Hc as (i & <- & Hi).
      apply in_seq in Hi. unfold len. rewrite length_chunk; lia.
    + intros i Hi. rewrite length_map, length_seq in Hi.
      apply nth_error_chunks. exact Hi.
Qed.

Lemma proof_from_bytes_spec_witness :
  Proof.from_bytes (zero_bytes 33) 2 true = Raise (AssertionError ProofAlignment)
  /\ Proof.from_bytes (zero_bytes 64) 2 true = Raise (AssertionError (FrCount 114 2))
  /\ exists p, Proof.from_bytes (zero_bytes 3648) 2 true = Ok p
       /\ len (Proof.data p) = 114
       /\ concat (Proof.data p) = zero_bytes 3648.
Proof.
  split; [|split].
  - apply (proj1 (proof_from_bytes_spec (zero_bytes 33) 2 true)).
    vm_compute. discriminate.
  - apply (proj1 (proj2 (proof_from_bytes_spec (zero_bytes 64) 2 true))).
    + vm_compute. reflexivity.
    + vm_compute. discriminate.
  - destruct (proj2 (proj2 (proof_from_bytes_spec (zero_bytes 3648) 2 true)))
      as (p & Hp & _ & _ & Hn & Hc & _).
    + vm_compute. reflexivity.
    + exists p. repeat split; assumption.
Defined.

(** C5, as the code has it.  [expected_fr_count] has no parameter check: for
    every [log_n < 2] it returns the same closed-form sum as elsewhere,
    [12 * log_n + 90] for a ZK proof and [11 * log_n + 75] otherwise, and the
    count is negative exactly from [log_n <= -8] (ZK) or [log_n <= -7]
    (non-ZK) down. *)
Theorem expected_fr_count_unchecked (log_n : Z) (is_zk : bool) :
  log_n < 2 ->
  Proof.expected_fr_count log_n is_zk
  = (if is_zk then 12 * log_n + 90 else 11 * log_n + 75)
  /\ (Proof.expected_fr_count log_n is_zk < 0
      <-> log_n <= (if is_zk then -8 else -7)).
Proof.
  intros _. rewrite expected_fr_count_closed. destruct is_zk; cbv iota; lia.
Qed.

Lemma expected_fr_count_unchecked_witness :
  Proof.expected_fr_count 1 true = 12 * 1 + 90
  /\ (Proof.expected_fr_count 1 true < 0 <-> 1 <= -8).
Proof. apply (expected_fr_count_unchecked 1 true). lia. Defined.

(** C5 as stated fails: for [log_n = 1], [0] and [-8] a count is returned,
    and the last one is negative. *)
Lemma expected_fr_count_small_log_n :
  Proof.expected_fr_count 1 true = 102
  /\ Proof.expected_fr_count 0 false = 75
  /\ Proof.expected_fr_count (-8) true = -6.
Proof. repeat split. Qed.

(** C9.  For every [log_n >= 2] and either [is_zk], one more round gives a
    strictly larger count, and the ZK layout is strictly larger than the
    non-ZK layout. *)
Theorem expected_fr_count_monotone (log_n : Z) (is_zk : bool) :
  2 <= log_n ->
  Proof.expected_fr_count (log_n + 1) is_zk > Proof.expected_fr_count log_n is_zk
  /\ Proof.expected_fr_count log_n true > Proof.expected_fr_count log_n false.
Proof.
  intros Hlog. rewrite !expected_fr_count_closed. destruct is_zk; cbv iota; lia.
Qed.

Lemma expected_fr_count_monotone_witness :
  Proof.expected_fr_count (2 + 1) true > Proof.expected_fr_count 2 true
  /\ Proof.expected_fr_count 2 true > Proof.expected_fr_count 2 false.
Proof. apply (expected_fr_count_monotone 2 true). lia. Defined.

(** ** Parameter recovery *)

Lemma detect_config_5568 cfg : detect_config 5568 cfg = (9, false).
Proof. destruct cfg. vm_compute. reflexivity. Qed.

Lemma wire_commitment_chunks (data : bytes) n log_n is_zk idx :
  0 <= idx -> (Z.to_nat (16 + idx * 2 + 1) < n)%nat ->
  exists b,
    Proof.wire_commitment
      (Proof.mk (map (fun i => firstn 32 (skipn (32 * i) data)) (seq 0 n))
                log_n is_zk) idx = Ok b.
Proof.
  intros Hidx Hn. unfold Proof.wire_commitment. cbv zeta. cbn [Proof.data].
  erewrite (py_index_nth _ (16 + idx * 2)); [|lia|apply nth_error_chunks; lia].
  erewrite (py_index_nth _ (16 + idx * 2 + 1)); [|lia|apply nth_error_chunks; lia].
  cbn [bind]. eexists. reflexivity.
Qed.

(** C10.  Within the search range the byte length does not determine the
    parameters: [(7, true)] and [(9, false)] both give 174 elements, 5568
    bytes.  On that length the ZK pass of the recovery loop stops at
    [(7, true)], the non-ZK pass then overwrites it, and the loop ends with
    [(9, false)] whatever the caller's parameters were; the buffer is then
    decoded as a non-ZK proof. *)
Theorem detection_not_injective :
  Proof.expected_fr_count 7 true = 174
  /\ Proof.expected_fr_count 9 false = 174
  /\ 174 * 32 = 5568
  /\ In 7 (py_range 4 30) /\ In 9 (py_range 4 30)
  /\ (forall cfg, detect_log 5568 true (py_range 4 30) cfg = (7, true))
  /\ (forall cfg, detect_config 5568 cfg = (9, false))
  /\ (forall data log_n is_zk,
        len data = 5568 ->
        Proof.expected_fr_count log_n is_zk * 32 <> 5568 ->
        exists p, validate_proof_structure data log_n is_zk = Ok p
                  /\ Proof.log_n p = 9 /\ Proof.is_zk p = false
                  /\ len (Proof.data p) = 174).
Proof.
  split; [reflexivity|]. split; [reflexivity|]. split; [reflexivity|].
  split; [vm_compute; tauto|]. split; [vm_compute; tauto|].
  split; [intros [l z]; vm_compute; reflexivity|].
  split; [exact detect_config_5568|].
  intros data log_n is_zk Hlen Hne.
  unfold validate_proof_structure. cbv zeta.
  apply not_eq_sym, Z.eqb_neq in Hne.
  rewrite Hlen, Hne. cbn [negb]. rewrite detect_config_5568.
  rewrite proof_from_bytes_ok by (rewrite Hlen; reflexivity).
  cbn [bind].
  destruct (wire_commitment_chunks data (Z.to_nat (Proof.expected_fr_count 9 false))
              9 false 0) as [b0 E0]; [lia|vm_compute; lia|].
  destruct (wire_commitment_chunks data (Z.to_nat (Proof.expected_fr_count 9 false))
              9 false 1) as [b1 E1]; [lia|vm_compute; lia|].
  destruct (wire_commitment_chunks data (Z.to_nat (Proof.expected_fr_count 9 false))
              9 false 2) as [b2 E2]; [lia|vm_compute; lia|].
  rewrite E0, E1, E2. cbn [bind].
  eexists. split; [reflexivity|]. cbn [Proof.log_n Proof.is_zk Proof.data].
  split; [reflexivity|]. split; [reflexivity|].
  unfold len. rewrite length_map, length_seq. reflexivity.
Qed.

Lemma detection_not_injective_witness :
  exists p, validate_proof_structure (zero_bytes 5568) 17 true = Ok p
            /\ Proof.log_n p = 9 /\ Proof.is_zk p = false
            /\ len (Proof.data p) = 174.
Proof.
  destruct detection_not_injective as (_ & _ & _ & _ & _ & _ & _ & H).
  apply H.
  - vm_compute. reflexivity.
  - vm_compute. discriminate.
Defined.

(** ** The verification-key decoder *)

Lemma vk_commitments (data : bytes) :
  len data = 1888 ->
  fold_left
    (fun commitments i =>
       let offset := 96 + i * 64 in
       commitments ++ [py_slice data offset (offset + 64)])
    (py_range 0 28) []
  = map (fun i => firstn 64 (skipn (64 * i) (skipn 96 data))) (seq 0 28).
Proof.
  intros Hlen.
  rewrite (fold_left_snoc_map
             (fun i => py_slice data (96 + i * 64) (96 + i * 64 + 64))).
  cbn [app]. unfold py_range. rewrite map_map.
  change (Z.to_nat (28 - 0)) with 28%nat.
  apply map_ext_in. intros k Hk. apply in_seq in Hk.
  rewrite py_slice_in_range, skipn_skipn by lia.
  f_equal; [|f_equal]; lia.
Qed.

Lemma vk_from_bytes_ok (data : bytes) :
  len data = 1888 ->
  VerificationKey.from_bytes data
  = Ok (VerificationKey.mk
          (int_from_bytes (firstn 32 data))
          (int_from_bytes (firstn 32 (skipn 32 data)))
          (int_from_bytes (firstn 32 (skipn 64 data)))
          (map (fun i => firstn 64 (skipn (64 * i) (skipn 96 data))) (seq 0 28))).
Proof.
  intros Hlen. unfold VerificationKey.from_bytes. cbv zeta.
  rewrite vk_commitments by exact Hlen.
  rewrite Hlen, Z.eqb_refl.
  rewrite !py_slice_in_range by lia.
  reflexivity.
Qed.

(** C4.  Decoding a verification key fails on the length assertion for every
    buffer that is not exactly 1888 bytes long.  For a 1888-byte buffer it
    succeeds: the headers are the big-endian values of the first three
    32-byte slices, the 28 commitments are the 64-byte slices from offset 96
    on, byte for byte, and the headers are not reduced modulo [BN254_R] (the
    all-[0xff] key has headers [2^256 - 1]). *)
Theorem vk_from_bytes_spec (data : bytes) :
  (len data <> 1888 ->
   VerificationKey.from_bytes data = Raise (AssertionError (VkLength (len data))))
  /\ (len data = 1888 ->
      exists vk,
        VerificationKey.from_bytes data = Ok vk
        /\ VerificationKey.log2_circuit_size vk = int_from_bytes (firstn 32 data)
        /\ VerificationKey.log2_domain_size vk
           = int_from_bytes (firstn 32 (skipn 32 data))
        /\ VerificationKey.num_public_inputs vk
           = int_from_bytes (firstn 32 (skipn 64 data))
        /\ length (VerificationKey.commitments vk) = 28%nat
        /\ (forall i, (i < 28)%nat ->
              nth_error (VerificationKey.commitments vk) i
              = Some (firstn 64 (skipn (96 + 64 * i) data)))
        /\ Forall (fun c => len c = 64) (VerificationKey.commitments vk)
        /\ firstn 96 data ++ concat (VerificationKey.commitments vk) = data)
  /\ (exists vk,
        VerificationKey.from_bytes vk_all_ones = Ok vk
        /\ VerificationKey.log2_circuit_size vk = 2 ^ 256 - 1
        /\ VerificationKey.log2_domain_size vk = 2 ^ 256 - 1
        /\ VerificationKey.num_public_inputs vk = 2 ^ 256 - 1
        /\ BN254_R <= 2 ^ 256 - 1).
Proof.
  split; [|split].
  - intros H. unfold VerificationKey.from_bytes.
    apply Z.eqb_neq in H. now rewrite H.
  - intros Hlen.
    assert (Hnat : length data = 1888%nat) by (unfold len in Hlen; lia).
    eexists. split; [apply vk_from_bytes_ok; exact Hlen|].
    cbn [VerificationKey.log2_circuit_size VerificationKey.log2_domain_size
         VerificationKey.num_public_inputs VerificationKey.commitments].
    split; [reflexivity|]. split; [reflexivity|]. split; [reflexivity|].
    split; [now rewrite length_map, length_seq|]. split; [|split].
    + intros i Hi. rewrite nth_error_map, nth_error_seq.
      apply Nat.ltb_lt in Hi. rewrite Hi. cbn [option_map Nat.add].
      now rewrite skipn_skipn, Nat.add_comm.
    + apply Forall_forall. intros c Hc.
      apply in_map_iff in Hc. destruct Hc as (i & <- & Hi).
      apply in_seq in Hi. unfold len.
      rewrite length_chunk; [reflexivity|]. rewrite length_skipn. lia.
    + rewrite (concat_chunks 64 (skipn 96 data) 28).
      * apply firstn_skipn.
      * rewrite length_skipn. lia.
  - exists (VerificationKey.mk (2 ^ 256 - 1) (2 ^ 256 - 1) (2 ^ 256 - 1)
                               (repeat (repeat xff 64) 28)).
    split; [vm_compute; reflexivity|].
    cbn [VerificationKey.log2_circuit_size VerificationKey.log2_domain_size
         VerificationKey.num_public_inputs].
    repeat split. vm_compute. discriminate.
Qed.

Lemma vk_from_bytes_spec_witness :
  VerificationKey.from_bytes (zero_bytes 1887)
  = Raise (AssertionError (VkLength (len (zero_bytes 1887))))
  /\ VerificationKey.from_bytes (zero_bytes 1889)
     = Raise (AssertionError (VkLength (len (zero_bytes 1889))))
  /\ exists vk,
       VerificationKey.from_bytes vk_all_ones = Ok vk
       /\ firstn 96 vk_all_ones ++ concat (VerificationKey.commitments vk)
          = vk_all_ones.
Proof.
  split; [|split].
  - apply (proj1 (vk_from_bytes_spec (zero_bytes 1887))). vm_compute. discriminate.
  - apply (proj1 (vk_from_bytes_spec (zero_bytes 1889))). vm_compute. discriminate.
  - destruct (proj1 (proj2 (vk_from_bytes_spec vk_all_ones)))
      as (vk & Hvk & _ & _ & _ & _ & _ & _ & Hcat).
    + vm_compute. reflexivity.
    + exists vk. split; assumption.
Defined.

(** ** Integers and bytes *)

Lemma byte_val_of_Z z : 0 <= z < 256 -> byte_val (byte_of_Z z) = z.
Proof.
  intros Hz. unfold byte_val, byte_of_Z.
  pose proof (Byte.to_of_N_option_map (Z.to_N z)) as E.
  destruct (N.leb_spec (Z.to_N z) 255) as [_|Hgt]; [|lia].
  destruct (Byte.of_N (Z.to_N z)) as [b|]; cbn [option_map] in E; [|discriminate].
  injection E as ->. lia.
Qed.

Lemma int_from_bytes_snoc l b :
  int_from_bytes (l ++ [b]) = int_from_bytes l * 256 + byte_val b.
Proof. unfold int_from_bytes. now rewrite fold_left_app. Qed.

Lemma length_be_digits n : forall x, length (be_digits n x) = n.
Proof.
  induction n as [|n IH]; intros x; cbn [be_digits]; [reflexivity|].
  rewrite length_app, IH. cbn [length]. lia.
Qed.

Lemma int_from_be_digits n :
  forall x, 0 <= x < 256 ^ Z.of_nat n -> int_from_bytes (be_digits n x) = x.
Proof.
  induction n as [|n IH]; intros x Hx; cbn [be_digits].
  - change (256 ^ Z.of_nat 0) with 1 in Hx. unfold int_from_bytes. cbn [fold_left]. lia.
  - rewrite Nat2Z.inj_succ, Z.pow_succ_r in Hx by lia.
    rewrite int_from_bytes_snoc, IH, byte_val_of_Z.
    + pose proof (Z.div_mod x 256). lia.
    + apply Z.mod_pos_bound. lia.
    + split; [apply Z.div_pos; lia|apply Z.div_lt_upper_bound; lia].
Qed.

Lemma BN254_R_pos : 0 < BN254_R.
Proof. reflexivity. Qed.

Lemma BN254_R_fits : BN254_R < 256 ^ Z.of_nat 32.
Proof. reflexivity. Qed.

Lemma fr_to_bytes_ok a :
  0 <= a < BN254_R -> fr_to_bytes a = Ok (be_digits 32 a).
Proof.
  intros Ha. unfold fr_to_bytes, int_to_bytes.
  rewrite Z.mod_small by exact Ha.
  pose proof BN254_R_fits.
  destruct (Z.ltb_spec a 0); [lia|].
  destruct (Z.leb_spec (256 ^ Z.of_nat 32) a); [lia|]. reflexivity.
Qed.

(** C7.  Encoding an integer of [[0, BN254_R)] and decoding the 32 bytes
    obtained gives the integer back; and a 32-byte input whose big-endian
    value is [BN254_R] or more is not refused: [fr_from_bytes] returns that
    value reduced modulo [BN254_R], a different integer of [[0, BN254_R)]. *)
Theorem fr_bytes_roundtrip :
  (forall a, 0 <= a < BN254_R ->
     exists b, fr_to_bytes a = Ok b /\ length b = 32%nat /\ fr_from_bytes b = a)
  /\ (forall b, length b = 32%nat -> BN254_R <= int_from_bytes b ->
        fr_from_bytes b = int_from_bytes b mod BN254_R
        /\ 0 <= fr_from_bytes b < BN254_R
        /\ fr_from_bytes b <> int_from_bytes b).
Proof.
  split.
  - intros a Ha. exists (be_digits 32 a).
    split; [apply fr_to_bytes_ok; exact Ha|].
    split; [apply length_be_digits|].
    unfold fr_from_bytes. pose proof BN254_R_fits.
    rewrite int_from_be_digits by lia. apply Z.mod_small. exact Ha.
  - intros b _ Hb. unfold fr_from_bytes.
    pose proof (Z.mod_pos_bound (int_from_bytes b) BN254_R BN254_R_pos).
    split; [reflexivity|]. split; [assumption|]. lia.
Qed.

Lemma fr_bytes_roundtrip_witness :
  (exists b, fr_to_bytes 5 = Ok b /\ length b = 32%nat /\ fr_from_bytes b = 5)
  /\ fr_from_bytes ones_fr = int_from_bytes ones_fr mod BN254_R
  /\ 0 <= fr_from_bytes ones_fr < BN254_R
  /\ fr_from_bytes ones_fr <> int_from_bytes ones_fr.
Proof.
  split.
  - apply (proj1 fr_bytes_roundtrip 5). vm_compute. split; [discriminate|reflexivity].
  - apply (proj2 fr_bytes_roundtrip ones_fr).
    + reflexivity.
    + vm_compute. discriminate.
Defined.

(** ** Modular exponentiation *)

Lemma pow_mod_pos_spec a e m : pow_mod_pos a e m = a ^ Zpos e mod m.
Proof.
  induction e as [e IH | e IH |]; cbn [pow_mod_pos].
  - rewrite IH, Pos2Z.inj_xI.
    replace (2 * Z.pos e + 1) with (Z.pos e + Z.pos e + 1) by lia.
    rewrite !Z.pow_add_r, Z.pow_1_r by lia.
    rewrite <- Zmult_mod, Zmult_mod_idemp_l. reflexivity.
  - rewrite IH, Pos2Z.inj_xO.
    replace (2 * Z.pos e) with (Z.pos e + Z.pos e) by lia.
    rewrite Z.pow_add_r, <- Zmult_mod by lia. reflexivity.
  - now rewrite Z.pow_1_r.
Qed.

Lemma py_pow_spec a e m : 0 <= e -> py_pow a e m = a ^ e mod m.
Proof.
  intros He. destruct e as [|e|e]; cbn [py_pow];
    [reflexivity | apply pow_mod_pos_spec | lia].
Qed.

Lemma fr_inv_spec a : fr_inv a = a ^ (BN254_R - 2) mod BN254_R.
Proof. unfold fr_inv. apply py_pow_spec. discriminate. Qed.

(** C2, as the code has it.  [fr_inv] is the bare Fermat exponentiation
    [a ^ (BN254_R - 2) mod BN254_R] for every [a], with no test for zero; at
    [a = 0] it returns 0, the value of [0 ^ (BN254_R - 2) mod BN254_R]. *)
Theorem fr_inv_unguarded :
  (forall a, fr_inv a = a ^ (BN254_R - 2) mod BN254_R)
  /\ 0 ^ (BN254_R - 2) mod BN254_R = 0
  /\ fr_div 1 0 = 0.
Proof.
  split; [exact fr_inv_spec|]. split.
  - rewrite Z.pow_0_l by reflexivity. reflexivity.
  - unfold fr_div, fr_mul. rewrite fr_inv_spec, Z.pow_0_l by reflexivity.
    reflexivity.
Qed.

(** C2 as stated fails: [fr_inv 0] returns, and the value is 0. *)
Lemma fr_inv_zero_returns_zero : fr_inv 0 = 0.
Proof. vm_compute. reflexivity. Qed.

(** ** Primality of the modulus *)

Lemma exists_prime_divisor n : 1 < n -> exists p, Z.prime p /\ (p | n).
Proof.
  intros Hn. assert (0 <= n) as H0 by lia. revert Hn.
  pattern n. apply Z_lt_induction; [|exact H0]. clear n H0.
  intros n IH Hn.
  destruct (prime_dec n) as [Hp|Hnp].
  - exists n. split; [apply prime_alt; exact Hp | apply Z.divide_refl].
  - destruct (not_prime_divide n Hn Hnp) as (d & Hd & Hdn).
    destruct (IH d ltac:(lia) ltac:(lia)) as (p & Hp & Hpd).
    exists p. split; [exact Hp | eapply Z.divide_trans; eauto].
Qed.

Lemma pow_mul_cong_one c a k p :
  1 < p -> 0 <= a -> 0 <= k -> c ^ a mod p = 1 -> c ^ (a * k) mod p = 1.
Proof.
  intros Hp Ha Hk H.
  rewrite Z.pow_mul_r, <- Z.mod_pow_l, H, Z.pow_1_l by lia.
  apply Z.mod_1_l; lia.
Qed.

Lemma mod_one_divisor x n p :
  1 < p -> (p | n) -> x mod n = 1 -> x mod p = 1.
Proof.
  intros Hp Hd H.
  rewrite <- (Z.mod_mod_divide x n p), H by trivial.
  apply Z.mod_1_l; lia.
Qed.

(** One factor of the Pocklington criterion: a prime [q] dividing [n - 1],
    with a base [a] of order dividing [n - 1] but not [(n - 1) / q] modulo
    every prime factor of [n], divides [p - 1] for each prime factor [p]. *)
Lemma pocklington_step n q a p :
  1 < n -> Z.prime q -> (q | n - 1) ->
  a ^ (n - 1) mod n = 1 ->
  Z.gcd (a ^ ((n - 1) / q) mod n - 1) n = 1 ->
  Z.prime p -> (p | n) -> (q | p - 1).
Proof.
  intros Hn Hq Hqd Hfer Hgcd Hp Hpd.
  pose proof (Z.prime_ge_2 _ Hq) as Hq2.
  pose proof (Z.prime_ge_2 _ Hp) as Hp2.
  destruct (Z.BoolSpec_divide q (p - 1)) as [Hyes|Hno]; [exact Hyes|exfalso].
  pose proof (Z.Bezout_coprime _ _ (Z.coprime_prime_l _ _ Hq Hno))
    as (u & v & Huv).
  set (k := (n - 1) / q) in *.
  assert (Hk : n - 1 = k * q).
  { destruct Hqd as [z Hz]. unfold k. rewrite Hz, Z.div_mul by lia. reflexivity. }
  assert (Hk0 : 0 <= k) by nia.
  set (c := a ^ k) in *.
  assert (H1 : c ^ q mod p = 1).
  { unfold c. rewrite <- Z.pow_mul_r, <- Hk by lia.
    apply (mod_one_divisor _ n); trivial; lia. }
  assert (H2 : c mod p <> 0).
  { intros H0. rewrite <- Z.mod_pow_l, H0, Z.pow_0_l, Z.mod_0_l in H1 by lia. lia. }
  pose proof (Z.fermat_nz p c Hp H2) as H3.
  set (u' := u mod (p - 1) + (p - 1)).
  set (w := (1 - u / (p - 1)) * q - v).
  assert (Hu' : 0 < u').
  { pose proof (Z.mod_pos_bound u (p - 1) ltac:(lia)). unfold u'. lia. }
  assert (Hw : u' * q = 1 + (p - 1) * w).
  { unfold u', w. rewrite (Z.mod_eq u (p - 1)) by lia. nia. }
  assert (Hw0 : 0 <= w) by nia.
  assert (Hc : c mod p = 1).
  { pose proof (pow_mul_cong_one c q u' p ltac:(lia) ltac:(lia) ltac:(lia) H1) as E.
    rewrite (Z.mul_comm q u'), Hw, Z.pow_add_r, Z.pow_1_r in E by nia.
    rewrite Zmult_mod, (pow_mul_cong_one c (p - 1) w p) in E by (trivial; lia).
    rewrite Z.mul_1_r, Z.mod_mod in E by lia. exact E. }
  assert (Hdiv : (p | c mod n - 1)).
  { apply Z.mod_divide; [lia|].
    rewrite Zminus_mod, (Z.mod_mod_divide c n p), Hc by trivial.
    rewrite Z.mod_1_l by lia. reflexivity. }
  pose proof (Z.gcd_greatest _ _ _ Hdiv Hpd) as G.
  rewrite Hgcd in G. apply Z.divide_1_r in G. lia.
Qed.

(** If every prime factor of [n] is 1 modulo some [f] whose square exceeds
    [n], then [n] is prime. *)
Lemma pocklington n f :
  1 < n -> 0 < f -> n < (f + 1) * (f + 1) ->
  (forall p, Z.prime p -> (p | n) -> (f | p - 1)) -> Z.prime n.
Proof.
  intros Hn Hf Hbig Hall.
  destruct (prime_dec n) as [Hp|Hnp]; [apply prime_alt; exact Hp|exfalso].
  destruct (not_prime_divide n Hn Hnp) as (d & Hd & [e He]).
  assert (He1 : 1 < e) by nia.
  destruct (exists_prime_divisor d ltac:(lia)) as (p1 & Hp1 & Hd1).
  destruct (exists_prime_divisor e He1) as (p2 & Hp2 & Hd2).
  pose proof (Z.prime_ge_2 _ Hp1). pose proof (Z.prime_ge_2 _ Hp2).
  assert (f <= p1 - 1).
  { apply Z.divide_pos_le; [lia|]. apply Hall; trivial.
    rewrite He. apply Z.divide_mul_r; exact Hd1. }
  assert (f <= p2 - 1).
  { apply Z.divide_pos_le; [lia|]. apply Hall; trivial.
    rewrite He. apply Z.divide_mul_l; exact Hd2. }
  assert (p1 <= d) by (apply Z.divide_pos_le; [lia|exact Hd1]).
  assert (p2 <= e) by (apply Z.divide_pos_le; [lia|exact Hd2]).
  nia.
Qed.

Section CertificateSoundness.

Import Primality.

Lemma trial_sound fuel : forall n d,
  0 < d -> trial fuel n d = true ->
  forall k, d <= k -> k * k <= n -> ~ (k | n).
Proof.
  induction fuel as [|fuel IH]; intros n d Hd H k Hk Hkk Hdiv; cbn [trial] in H.
  - apply Z.ltb_lt in H. nia.
  - apply orb_true_iff in H. destruct H as [H|H].
    + apply Z.ltb_lt in H. nia.
    + apply andb_true_iff in H. destruct H as [Hnd Hrest].
      apply negb_true_iff, Z.eqb_neq in Hnd.
      destruct (Z.eq_dec k d) as [->|Hne].
      * apply Hnd. apply Z.mod_divide; [lia|exact Hdiv].
      * apply (IH n (d + 1) ltac:(lia) Hrest k); trivial; lia.
Qed.

Lemma trial_prime_sound n : trial_prime n = true -> Z.prime n.
Proof.
  unfold trial_prime. intros H. apply andb_true_iff in H. destruct H as [H1 H2].
  apply Z.ltb_lt in H1. split; [exact H1|].
  intros m Hm [j Hj].
  assert (Hj1 : 1 < j) by nia.
  assert (Hcase : m * m <= n \/ j * j <= n) by nia.
  destruct Hcase as [Hc|Hc].
  - apply (trial_sound _ n 2 ltac:(lia) H2 m); [lia|exact Hc|].
    exists j; exact Hj.
  - apply (trial_sound _ n 2 ltac:(lia) H2 j); [lia|exact Hc|].
    exists m; lia.
Qed.

Lemma pock_ok_sound n a q p :
  1 < n -> py_pow a (n - 1) n = 1 -> pock_ok n a q = true -> Z.prime q ->
  Z.prime p -> (p | n) -> (q | p - 1).
Proof.
  intros Hn Hfer Hok Hq Hp Hpd. unfold pock_ok in Hok.
  apply andb_true_iff in Hok. destruct Hok as [Hd Hg].
  apply Z.eqb_eq in Hd, Hg.
  pose proof (Z.prime_ge_2 _ Hq).
  assert (Hqd : (q | n - 1)) by (apply Z.mod_divide; [lia|exact Hd]).
  rewrite py_pow_spec in Hfer by lia.
  rewrite py_pow_spec in Hg.
  - exact (pocklington_step n q a p Hn Hq Hqd Hfer Hg Hp Hpd).
  - apply Z.div_pos; lia.
Qed.

Ltac split_checks H :=
  repeat (apply andb_true_iff in H; destruct H as [H ?]);
  repeat match goal with
         | E : (_ <? _) = true |- _ => apply Z.ltb_lt in E
         | E : (_ =? _) = true |- _ => apply Z.eqb_eq in E
         end.

Lemma check_cert_sound c : forall n, check_cert n c = true -> Z.prime n.
Proof.
  induction c as [|a q c IH|a q1 q2 c1 IH1 c2 IH2]; intros n H;
    cbn [check_cert] in H.
  - apply trial_prime_sound; exact H.
  - split_checks H.
    assert (Hq : Z.prime q) by (apply IH; assumption).
    pose proof (Z.prime_ge_2 _ Hq).
    apply (pocklington n q); trivial; [lia|].
    intros p Hp Hpd. eapply pock_ok_sound; eauto.
  - split_checks H.
    assert (Hq1 : Z.prime q1) by (apply IH1; assumption).
    assert (Hq2 : Z.prime q2) by (apply IH2; assumption).
    pose proof (Z.prime_ge_2 _ Hq1). pose proof (Z.prime_ge_2 _ Hq2).
    apply (pocklington n (q1 * q2)); trivial; [nia|].
    intros p Hp Hpd.
    assert (D1 : (q1 | p - 1)) by (eapply pock_ok_sound; eauto).
    assert (D2 : (q2 | p - 1)) by (eapply pock_ok_sound; eauto).
    destruct D2 as [z Hz]. rewrite Hz in D1 |- *.
    apply Z.mul_divide_mono_r.
    apply (Z.gauss q1 q2 z); [rewrite Z.mul_comm; exact D1 | assumption].
Qed.

Lemma BN254_R_prime : Z.prime BN254_R.
Proof. apply (check_cert_sound BN254_R_cert). vm_compute. reflexivity. Qed.

End CertificateSoundness.

(** ** Division in the field *)

Lemma fr_inv_mul b :
  0 <= b < BN254_R -> b <> 0 -> (fr_inv b * b) mod BN254_R = 1.
Proof.
  intros Hb Hb0. rewrite fr_inv_spec, Zmult_mod_idemp_l.
  replace (b ^ (BN254_R - 2) * b) with (b ^ (BN254_R - 1)).
  - apply Z.fermat_nz; [exact BN254_R_prime|].
    rewrite Z.mod_small by exact Hb. exact Hb0.
  - replace (BN254_R - 1) with (BN254_R - 2 + 1) by lia.
    rewrite Z.pow_add_r, Z.pow_1_r; [reflexivity|discriminate|lia].
Qed.

Lemma fr_mul_div_of_inv a b :
  (fr_inv b * b) mod BN254_R = 1 -> 0 <= a < BN254_R ->
  fr_mul (fr_div a b) b = a.
Proof.
  intros Hinv Ha. unfold fr_div, fr_mul.
  rewrite Zmult_mod_idemp_l, <- Z.mul_assoc, <- Zmult_mod_idemp_r.
  rewrite Hinv, Z.mul_1_r. apply Z.mod_small. exact Ha.
Qed.

(** C8.  For [a] and [b] in [[0, BN254_R)] with [b] not 0, multiplying the
    quotient [fr_div a b] by [b] gives [a] back. *)
Theorem fr_div_mul (a b : Z) :
  0 <= a < BN254_R -> 0 <= b < BN254_R -> b <> 0 ->
  fr_mul (fr_div a b) b = a.
Proof.
  intros Ha Hb Hb0. apply fr_mul_div_of_inv; [|exact Ha].
  apply fr_inv_mul; assumption.
Qed.

Lemma fr_div_mul_witness : fr_mul (fr_div 3 2) 2 = 3.
Proof.
  apply fr_div_mul; [unfold BN254_R; lia | unfold BN254_R; lia | discriminate].
Defined.

(** ** Sumcheck round zero *)

Lemma py_index_0 {A} (x : A) l : py_index (x :: l) 0 = Ok x.
Proof. reflexivity. Qed.

Lemma py_index_1 {A} (x y : A) l : py_index (x :: y :: l) 1 = Ok y.
Proof. reflexivity. Qed.

(** C6, as the code has it.  For a ZK proof whose libra sum decodes to 0
    while the round-0 sum [u0 + u1] is not 0, the check returns normally,
    having reported the coefficients and the libra sum and no multiplier: the
    division is guarded by [ls != 0].  When the libra sum is not 0 and
    differs from the sum, the check reports [fr_div sum_u ls] and returns
    normally; that multiplier times the libra sum is the round-0 sum. *)
Theorem sumcheck_round_zero_zk (p : Proof.t) (b0 b1 ls_bytes : bytes)
        (rest : list bytes) :
  Proof.sumcheck_univariate p 0 = b0 :: b1 :: rest ->
  Proof.libra_sum p = Ok (Some ls_bytes) ->
  ls_bytes <> [] ->
  let u0 := fr_from_bytes b0 in
  let u1 := fr_from_bytes b1 in
  let sum_u := fr_add u0 u1 in
  let ls := fr_from_bytes ls_bytes in
  (ls = 0 -> sum_u <> 0 ->
   validate_sumcheck_round_zero p true
   = Ok [RoundZero u0 u1 sum_u; LibraSum ls])
  /\ (ls <> 0 -> sum_u <> ls ->
      validate_sumcheck_round_zero p true
      = Ok [RoundZero u0 u1 sum_u; LibraSum ls;
            ImpliedChallenge (fr_div sum_u ls)]
      /\ fr_mul (fr_div sum_u ls) ls = sum_u).
Proof.
  intros Huni Hls Hne u0 u1 sum_u ls.
  unfold validate_sumcheck_round_zero. cbv zeta.
  rewrite Huni, py_index_0, py_index_1, Hls. cbn [bind].
  destruct ls_bytes as [|x xs]; [contradiction|].
  fold u0 u1 sum_u ls.
  split.
  - intros H0 Hs. rewrite H0 in *.
    apply Z.eqb_neq in Hs. rewrite Hs. reflexivity.
  - intros H0 Hs. split.
    + apply Z.eqb_neq in H0, Hs. rewrite Hs, H0. reflexivity.
    + pose proof (Z.mod_pos_bound (int_from_bytes (x :: xs)) BN254_R BN254_R_pos).
      pose proof (Z.mod_pos_bound (u0 + u1) BN254_R BN254_R_pos).
      apply fr_mul_div_of_inv; [apply fr_inv_mul|]; assumption.
Qed.

Lemma sumcheck_round_zero_zk_witness :
  validate_sumcheck_round_zero decoded_libra_zero true
  = Ok [RoundZero (fr_from_bytes one_fr) (fr_from_bytes zero_fr)
                  (fr_add (fr_from_bytes one_fr) (fr_from_bytes zero_fr));
        LibraSum (fr_from_bytes zero_fr)]
  /\ validate_sumcheck_round_zero decoded_libra_two true
     = Ok [RoundZero (fr_from_bytes one_fr) (fr_from_bytes zero_fr)
                     (fr_add (fr_from_bytes one_fr) (fr_from_bytes zero_fr));
           LibraSum (fr_from_bytes two_fr);
           ImpliedChallenge
             (fr_div (fr_add (fr_from_bytes one_fr) (fr_from_bytes zero_fr))
                     (fr_from_bytes two_fr))]
     /\ fr_mul (fr_div (fr_add (fr_from_bytes one_fr) (fr_from_bytes zero_fr))
                       (fr_from_bytes two_fr))
               (fr_from_bytes two_fr)
        = fr_add (fr_from_bytes one_fr) (fr_from_bytes zero_fr).
Proof.
  split.
  - apply (proj1 (sumcheck_round_zero_zk decoded_libra_zero one_fr zero_fr
                    zero_fr (repeat zero_fr 7) eq_refl eq_refl
                    ltac:(discriminate))).
    + vm_compute. reflexivity.
    + vm_compute. discriminate.
  - apply (proj2 (sumcheck_round_zero_zk decoded_libra_two one_fr zero_fr
                    two_fr (repeat zero_fr 7) eq_refl eq_refl
                    ltac:(discriminate))).
    + vm_compute. discriminate.
    + vm_compute. discriminate.
Defined.

(** C6 as stated fails: the ZK proof [proof_libra_zero] decodes, its libra
    sum is 0 and its round-0 sum is 1, and the check returns normally. *)
Lemma sumcheck_libra_zero_returns :
  Proof.from_bytes proof_libra_zero 2 true = Ok decoded_libra_zero
  /\ Proof.is_zk decoded_libra_zero = true
  /\ Proof.libra_sum decoded_libra_zero = Ok (Some zero_fr)
  /\ fr_from_bytes zero_fr = 0
  /\ fr_add (fr_from_bytes one_fr) (fr_from_bytes zero_fr) = 1
  /\ validate_sumcheck_round_zero decoded_libra_zero true
     = Ok [RoundZero 1 0 1; LibraSum 0]
  /\ forall e, validate_sumcheck_round_zero decoded_libra_zero true <> Raise e.
Proof.
  assert (E : validate_sumcheck_round_zero decoded_libra_zero true
              = Ok [RoundZero 1 0 1; LibraSum 0]) by (vm_compute; reflexivity).
  split; [vm_compute; reflexivity|]. split; [reflexivity|].
  split; [vm_compute; reflexivity|]. split; [vm_compute; reflexivity|].
  split; [vm_compute; reflexivity|]. split; [exact E|].
  intros e. rewrite E. discriminate.
Qed.

(** * Further properties of the script *)

(** ** Field arithmetic on arbitrary integers *)

Lemma byte_val_range b : 0 <= byte_val b < 256.
Proof. unfold byte_val. pose proof (Byte.to_N_bounded b). lia. Qed.

Lemma byte_of_Z_val b : byte_of_Z (byte_val b) = b.
Proof. unfold byte_of_Z, byte_val. now rewrite N2Z.id, Byte.of_to_N. Qed.

Lemma int_from_bytes_range b : 0 <= int_from_bytes b < 256 ^ len b.
Proof.
  induction b as [|x b IH] using rev_ind.
  - unfold int_from_bytes, len. cbn. lia.
  - rewrite int_from_bytes_snoc. unfold len in *.
    rewrite length_app, Nat.add_1_r, Nat2Z.inj_succ, Z.pow_succ_r by lia.
    pose proof (byte_val_range x). lia.
Qed.

Lemma be_digits_int_from_bytes b : be_digits (length b) (int_from_bytes b) = b.
Proof.
  induction b as [|x b IH] using rev_ind; [reflexivity|].
  rewrite length_app, Nat.add_1_r, int_from_bytes_snoc. cbn [be_digits].
  pose proof (byte_val_range x).
  rewrite Z.div_add_l, Z.div_small, Z.add_0_r, IH by lia.
  rewrite Z.add_comm, Z.mod_add, Z.mod_small, byte_of_Z_val by lia.
  reflexivity.
Qed.

Lemma fr_to_bytes_total x : fr_to_bytes x = Ok (be_digits 32 (x mod BN254_R)).
Proof.
  unfold fr_to_bytes, int_to_bytes.
  pose proof (Z.mod_pos_bound x BN254_R BN254_R_pos). pose proof BN254_R_fits.
  destruct (Z.ltb_spec (x mod BN254_R) 0); [lia|].
  destruct (Z.leb_spec (256 ^ Z.of_nat 32) (x mod BN254_R)); [lia|]. reflexivity.
Qed.

Lemma be_digits_fr x :
  length (be_digits 32 (x mod BN254_R)) = 32%nat
  /\ int_from_bytes (be_digits 32 (x mod BN254_R)) = x mod BN254_R.
Proof.
  pose proof (Z.mod_pos_bound x BN254_R BN254_R_pos). pose proof BN254_R_fits.
  split; [apply length_be_digits|apply int_from_be_digits; lia].
Qed.

(** X1.  [fr_to_bytes] accepts every integer, negative or above the modulus
    too: it never overflows, returns exactly 32 bytes, and these bytes are
    the big-endian encoding of [x mod BN254_R]. *)
Theorem fr_to_bytes_canonical (x : Z) :
  exists b, fr_to_bytes x = Ok b
            /\ length b = 32%nat
            /\ int_from_bytes b = x mod BN254_R
            /\ fr_from_bytes b = x mod BN254_R.
Proof.
  destruct (be_digits_fr x) as [Hlen Hval].
  exists (be_digits 32 (x mod BN254_R)).
  split; [apply fr_to_bytes_total|]. split; [exact Hlen|]. split; [exact Hval|].
  unfold fr_from_bytes. rewrite Hval. apply Z.mod_mod. discriminate.
Qed.

(** X2.  Decoding 32 bytes and encoding the result gives the same bytes back
    exactly when their big-endian value is below [BN254_R]; any other input
    is replaced by its canonical encoding. *)
Theorem fr_reencode (b : bytes) :
  length b = 32%nat ->
  (fr_to_bytes (fr_from_bytes b) = Ok b <-> int_from_bytes b < BN254_R).
Proof.
  intros Hlen. rewrite fr_to_bytes_total. unfold fr_from_bytes.
  rewrite Z.mod_mod by discriminate.
  pose proof (Z.mod_pos_bound (int_from_bytes b) BN254_R BN254_R_pos) as Hm.
  pose proof BN254_R_fits. pose proof (int_from_bytes_range b) as Hr.
  split.
  - intros E.
    assert (E' : be_digits 32 (int_from_bytes b mod BN254_R) = b) by congruence.
    rewrite <- E', int_from_be_digits by lia. lia.
  - intros Hlt. rewrite Z.mod_small by lia.
    rewrite <- Hlen. now rewrite be_digits_int_from_bytes.
Qed.

Lemma fr_reencode_witness :
  (fr_to_bytes (fr_from_bytes one_fr) = Ok one_fr
   <-> int_from_bytes one_fr < BN254_R)
  /\ (fr_to_bytes (fr_from_bytes ones_fr) = Ok ones_fr
      <-> int_from_bytes ones_fr < BN254_R).
Proof. split; apply fr_reencode; reflexivity. Defined.

(** X3.  [fr_add], [fr_sub] and [fr_mul] return an element of
    [[0, BN254_R)] for all integers, and [fr_sub] undoes [fr_add] (and
    conversely) up to reduction of the first operand. *)
Theorem fr_add_sub_inverse (a b : Z) :
  0 <= fr_add a b < BN254_R
  /\ 0 <= fr_sub a b < BN254_R
  /\ 0 <= fr_mul a b < BN254_R
  /\ fr_sub (fr_add a b) b = a mod BN254_R
  /\ fr_add (fr_sub a b) b = a mod BN254_R.
Proof.
  unfold fr_add, fr_sub, fr_mul.
  repeat split; try (apply Z.mod_pos_bound; exact BN254_R_pos).
  - rewrite Zminus_mod_idemp_l. f_equal. lia.
  - rewrite Zplus_mod_idemp_l. f_equal. lia.
Qed.

Lemma fr_inv_range b : 0 <= fr_inv b < BN254_R.
Proof. rewrite fr_inv_spec. apply Z.mod_pos_bound. exact BN254_R_pos. Qed.

Lemma fr_inv_mul_any b :
  b mod BN254_R <> 0 -> (fr_inv b * b) mod BN254_R = 1.
Proof.
  intros Hb. rewrite fr_inv_spec, Zmult_mod_idemp_l.
  replace (b ^ (BN254_R - 2) * b) with (b ^ (BN254_R - 1)).
  - apply Z.fermat_nz; [exact BN254_R_prime|exact Hb].
  - replace (BN254_R - 1) with (BN254_R - 2 + 1) by lia.
    rewrite Z.pow_add_r, Z.pow_1_r; [reflexivity|discriminate|lia].
Qed.

Lemma fr_inv_multiple b : b mod BN254_R = 0 -> fr_inv b = 0.
Proof.
  intros Hb. rewrite fr_inv_spec, <- Z.mod_pow_l, Hb, Z.pow_0_l by reflexivity.
  reflexivity.
Qed.

(** X4.  [fr_inv b] is 0 exactly when [b] is a multiple of [BN254_R]; for
    every other integer [b], reduced or not, it is a nonzero field element
    and [fr_mul b (fr_inv b) = 1]. *)
Theorem fr_inv_zero_iff (b : Z) :
  (fr_inv b = 0 <-> b mod BN254_R = 0)
  /\ (b mod BN254_R <> 0 ->
      fr_mul b (fr_inv b) = 1 /\ 0 < fr_inv b < BN254_R).
Proof.
  assert (Hnz : b mod BN254_R <> 0 -> fr_inv b <> 0).
  { intros Hb E. pose proof (fr_inv_mul_any b Hb) as H. rewrite E in H. discriminate H. }
  split; [split|].
  - intros E. destruct (Z.eq_dec (b mod BN254_R) 0) as [H0|H0]; [exact H0|].
    now apply Hnz in H0.
  - apply fr_inv_multiple.
  - intros Hb. pose proof (fr_inv_range b). pose proof (Hnz Hb).
    split; [|lia]. unfold fr_mul. rewrite Z.mul_comm. apply fr_inv_mul_any. exact Hb.
Qed.

Lemma fr_inv_zero_iff_witness :
  fr_mul 2 (fr_inv 2) = 1 /\ 0 < fr_inv 2 < BN254_R.
Proof. apply (proj2 (fr_inv_zero_iff 2)). vm_compute. discriminate. Defined.

Lemma fr_mul_solve a b x :
  b mod BN254_R <> 0 -> (x * b) mod BN254_R = a mod BN254_R ->
  x mod BN254_R = (a * fr_inv b) mod BN254_R.
Proof.
  intros Hb Hx.
  rewrite (Zmult_mod a), <- Hx, <- Zmult_mod, <- Z.mul_assoc.
  rewrite <- Zmult_mod_idemp_r, (Z.mul_comm b), fr_inv_mul_any by exact Hb.
  now rewrite Z.mul_1_r.
Qed.

(** X5.  For a divisor that is not a multiple of [BN254_R], [fr_div a b] is
    the only field element [x] with [fr_mul x b = a mod BN254_R]. *)
Theorem fr_div_unique (a b x : Z) :
  b mod BN254_R <> 0 -> 0 <= x < BN254_R ->
  (fr_mul x b = a mod BN254_R <-> x = fr_div a b).
Proof.
  intros Hb Hx. unfold fr_div, fr_mul. split.
  - intros E. rewrite <- (fr_mul_solve a b x Hb E). symmetry. now apply Z.mod_small.
  - intros ->. rewrite Zmult_mod_idemp_l, <- Z.mul_assoc, <- Zmult_mod_idemp_r.
    now rewrite fr_inv_mul_any, Z.mul_1_r by exact Hb.
Qed.

Lemma fr_div_unique_witness :
  fr_mul 3 2 = 6 mod BN254_R <-> 3 = fr_div 6 2.
Proof.
  apply fr_div_unique; [vm_compute; discriminate | unfold BN254_R; lia].
Defined.

(** X6.  Inverting twice gives the reduced argument back, for every
    integer (at multiples of [BN254_R] both sides are 0). *)
Theorem fr_inv_involutive (b : Z) : fr_inv (fr_inv b) = b mod BN254_R.
Proof.
  destruct (Z.eq_dec (b mod BN254_R) 0) as [H0|H0].
  - rewrite (fr_inv_multiple b H0), H0. apply fr_inv_multiple. reflexivity.
  - pose proof (fr_inv_range b) as Hr. pose proof (fr_inv_range (fr_inv b)) as Hrr.
    assert (Hi : fr_inv b mod BN254_R <> 0).
    { rewrite Z.mod_small by exact Hr. intros E.
      pose proof (fr_inv_mul_any b H0) as H. rewrite E in H. discriminate H. }
    pose proof (fr_mul_solve 1 (fr_inv b) b Hi) as E.
    rewrite Z.mul_1_l, (Z.mod_small (fr_inv (fr_inv b))) in E by exact Hrr.
    rewrite <- E; [reflexivity|].
    rewrite Z.mul_comm, fr_inv_mul_any by exact H0. reflexivity.
Qed.

(** ** Hashing the verification key *)

Lemma int_to_bytes_ok x n :
  0 <= x < 256 ^ Z.of_nat n -> int_to_bytes x n = Ok (be_digits n x).
Proof.
  intros Hx. unfold int_to_bytes.
  destruct (Z.ltb_spec x 0); [lia|].
  destruct (Z.leb_spec (256 ^ Z.of_nat n) x); [lia|]. reflexivity.
Qed.

Lemma int_to_bytes_overflow x n :
  x < 0 \/ 256 ^ Z.of_nat n <= x -> int_to_bytes x n = Raise OverflowError.
Proof.
  intros Hx. unfold int_to_bytes.
  destruct (Z.ltb_spec x 0); [reflexivity|].
  destruct (Z.leb_spec (256 ^ Z.of_nat n) x); [reflexivity|lia].
Qed.

Lemma int_to_bytes_from_bytes b :
  int_to_bytes (int_from_bytes b) (length b) = Ok b.
Proof.
  rewrite int_to_bytes_ok by apply int_from_bytes_range.
  now rewrite be_digits_int_from_bytes.
Qed.

Lemma int_to_bytes_from_bytes_n b n :
  length b = n -> int_to_bytes (int_from_bytes b) n = Ok b.
Proof. intros <-. apply int_to_bytes_from_bytes. Qed.

Lemma fold_left_app_concat {A} (ls : list (list A)) (acc : list A) :
  fold_left (fun data c => data ++ c) ls acc = acc ++ concat ls.
Proof.
  revert acc. induction ls as [|l ls IH]; intros acc; cbn [fold_left concat].
  - now rewrite app_nil_r.
  - now rewrite IH, app_assoc.
Qed.

Lemma vk_from_bytes_inv data vk :
  VerificationKey.from_bytes data = Ok vk ->
  len data = 1888
  /\ vk = VerificationKey.mk
            (int_from_bytes (firstn 32 data))
            (int_from_bytes (firstn 32 (skipn 32 data)))
            (int_from_bytes (firstn 32 (skipn 64 data)))
            (map (fun i => firstn 64 (skipn (64 * i) (skipn 96 data))) (seq 0 28)).
Proof.
  intros H. destruct (Z.eq_dec (len data) 1888) as [Hlen|Hlen].
  - rewrite (vk_from_bytes_ok data Hlen) in H. split; [exact Hlen|congruence].
  - unfold VerificationKey.from_bytes in H. apply Z.eqb_neq in Hlen.
    rewrite Hlen in H. discriminate H.
Qed.

(** The headers and commitments of a decoded key, written back in the order
    [compute_vk_hash] concatenates them, are the decoded buffer. *)
Lemma vk_reserialise data vk :
  VerificationKey.from_bytes data = Ok vk ->
  int_to_bytes (VerificationKey.log2_circuit_size vk) 32 = Ok (firstn 32 data)
  /\ int_to_bytes (VerificationKey.log2_domain_size vk) 32
     = Ok (firstn 32 (skipn 32 data))
  /\ int_to_bytes (VerificationKey.num_public_inputs vk) 32
     = Ok (firstn 32 (skipn 64 data))
  /\ (firstn 32 data ++ firstn 32 (skipn 32 data) ++ firstn 32 (skipn 64 data))
     ++ concat (VerificationKey.commitments vk) = data.
Proof.
  intros H. apply vk_from_bytes_inv in H. destruct H as [Hlen ->].
  assert (Hnat : length data = 1888%nat) by (unfold len in Hlen; lia).
  cbn [VerificationKey.log2_circuit_size VerificationKey.log2_domain_size
       VerificationKey.num_public_inputs VerificationKey.commitments].
  assert (L : forall k, (k + 32 <= 1888)%nat ->
                        length (firstn 32 (skipn k data)) = 32%nat).
  { intros k Hk. rewrite length_firstn, length_skipn. lia. }
  split; [|split; [|split]].
  - apply int_to_bytes_from_bytes_n. apply (L 0%nat). lia.
  - apply int_to_bytes_from_bytes_n. apply L. lia.
  - apply int_to_bytes_from_bytes_n. apply L. lia.
  - rewrite (concat_chunks 64 (skipn 96 data) 28) by (rewrite length_skipn; lia).
    transitivity (firstn 96 data ++ skipn 96 data); [|apply firstn_skipn].
    f_equal.
    change 96%nat with (32 + (32 + 32))%nat.
    rewrite !firstn_plus, !skipn_skipn. reflexivity.
Qed.

(** X7.  Decoding a verification key loses nothing: two buffers that decode
    to the same key are equal. *)
Theorem vk_from_bytes_injective (data1 data2 : bytes) (vk : VerificationKey.t) :
  VerificationKey.from_bytes data1 = Ok vk ->
  VerificationKey.from_bytes data2 = Ok vk ->
  data1 = data2.
Proof.
  intros H1 H2.
  destruct (vk_reserialise _ _ H1) as (A1 & B1 & C1 & D1).
  destruct (vk_reserialise _ _ H2) as (A2 & B2 & C2 & D2).
  rewrite <- D1, <- D2. congruence.
Qed.

Lemma vk_from_bytes_injective_witness :
  vk_all_ones = repeat xff 1888.
Proof.
  apply (vk_from_bytes_injective vk_all_ones (repeat xff 1888)
           (VerificationKey.mk (2 ^ 256 - 1) (2 ^ 256 - 1) (2 ^ 256 - 1)
                               (repeat (repeat xff 64) 28)));
    vm_compute; reflexivity.
Defined.

Lemma reduce_to_fr_total h :
  reduce_to_fr h = Ok (be_digits 32 (int_from_bytes h mod BN254_R)).
Proof. exact (fr_to_bytes_total (int_from_bytes h)). Qed.

(** X8.  [reduce_to_fr] never fails, on input of any length: it returns the
    32-byte encoding of the input's value modulo [BN254_R], and it leaves its
    own output unchanged. *)
Theorem reduce_to_fr_canonical (h : bytes) :
  exists r, reduce_to_fr h = Ok r
            /\ length r = 32%nat
            /\ int_from_bytes r = int_from_bytes h mod BN254_R
            /\ reduce_to_fr r = Ok r.
Proof.
  destruct (be_digits_fr (int_from_bytes h)) as [Hlen Hval].
  exists (be_digits 32 (int_from_bytes h mod BN254_R)).
  split; [apply reduce_to_fr_total|]. split; [exact Hlen|]. split; [exact Hval|].
  rewrite (reduce_to_fr_total (be_digits _ _)), Hval, Z.mod_mod by discriminate.
  reflexivity.
Qed.

(** X9.  For a key decoded from a buffer, [compute_vk_hash] cannot fail and
    hashes exactly the bytes the key was decoded from: its result is
    [reduce_to_fr] of the digest of the buffer, 32 bytes encoding the digest
    modulo [BN254_R]. *)
Theorem compute_vk_hash_decoded (keccak256 : bytes -> bytes) (data : bytes)
        (vk : VerificationKey.t) :
  VerificationKey.from_bytes data = Ok vk ->
  compute_vk_hash keccak256 vk = reduce_to_fr (keccak256 data)
  /\ exists r, compute_vk_hash keccak256 vk = Ok r
               /\ length r = 32%nat
               /\ int_from_bytes r = int_from_bytes (keccak256 data) mod BN254_R.
Proof.
  intros H. destruct (vk_reserialise _ _ H) as (A & B & C & D).
  assert (E : compute_vk_hash keccak256 vk = reduce_to_fr (keccak256 data)).
  { unfold compute_vk_hash. cbv zeta. rewrite A, B, C. cbn [bind app].
    rewrite fold_left_app_concat, <- !app_assoc.
    rewrite <- !app_assoc in D. rewrite D. reflexivity. }
  split; [exact E|]. rewrite E, reduce_to_fr_total.
  destruct (be_digits_fr (int_from_bytes (keccak256 data))) as [Hlen Hval].
  eexists. split; [reflexivity|]. split; assumption.
Qed.

Lemma compute_vk_hash_decoded_witness :
  compute_vk_hash (firstn 32)
    (VerificationKey.mk (2 ^ 256 - 1) (2 ^ 256 - 1) (2 ^ 256 - 1)
                        (repeat (repeat xff 64) 28))
  = reduce_to_fr (firstn 32 vk_all_ones).
Proof.
  apply (compute_vk_hash_decoded (firstn 32) vk_all_ones).
  vm_compute. reflexivity.
Defined.

(** X10.  [compute_vk_hash] succeeds when the three headers are in
    [[0, 2^256)], whatever the commitments are, and raises [OverflowError]
    when one of them is negative or too large for 32 bytes. *)
Theorem compute_vk_hash_overflow (keccak256 : bytes -> bytes)
        (vk : VerificationKey.t) :
  let in_range x := 0 <= x < 2 ^ 256 in
  (in_range (VerificationKey.log2_circuit_size vk)
   /\ in_range (VerificationKey.log2_domain_size vk)
   /\ in_range (VerificationKey.num_public_inputs vk) ->
   exists r, compute_vk_hash keccak256 vk = Ok r /\ length r = 32%nat)
  /\ (~ (in_range (VerificationKey.log2_circuit_size vk)
         /\ in_range (VerificationKey.log2_domain_size vk)
         /\ in_range (VerificationKey.num_public_inputs vk)) ->
      compute_vk_hash keccak256 vk = Raise OverflowError).
Proof.
  intros in_range. unfold in_range. unfold compute_vk_hash. cbv zeta.
  change (2 ^ 256) with (256 ^ Z.of_nat 32).
  split.
  - intros (H1 & H2 & H3).
    rewrite !int_to_bytes_ok by assumption. cbn [bind].
    rewrite reduce_to_fr_total.
    eexists. split; [reflexivity|apply length_be_digits].
  - intros Hn.
    destruct (Z.ltb_spec (VerificationKey.log2_circuit_size vk) 0) as [|A0];
      [rewrite int_to_bytes_overflow by lia; reflexivity|].
    destruct (Z.leb_spec (256 ^ Z.of_nat 32) (VerificationKey.log2_circuit_size vk))
      as [|A1]; [rewrite int_to_bytes_overflow by lia; reflexivity|].
    rewrite (int_to_bytes_ok (VerificationKey.log2_circuit_size vk)) by lia.
    cbn [bind].
    destruct (Z.ltb_spec (VerificationKey.log2_domain_size vk) 0) as [|B0];
      [rewrite int_to_bytes_overflow by lia; reflexivity|].
    destruct (Z.leb_spec (256 ^ Z.of_nat 32) (VerificationKey.log2_domain_size vk))
      as [|B1]; [rewrite int_to_bytes_overflow by lia; reflexivity|].
    rewrite (int_to_bytes_ok (VerificationKey.log2_domain_size vk)) by lia.
    cbn [bind].
    rewrite int_to_bytes_overflow; [reflexivity|]. lia.
Qed.

Lemma compute_vk_hash_overflow_witness :
  (exists r, compute_vk_hash (firstn 32) (VerificationKey.mk 17 17 1 []) = Ok r
             /\ length r = 32%nat)
  /\ compute_vk_hash (firstn 32) (VerificationKey.mk 17 (-1) 1 [])
     = Raise OverflowError.
Proof.
  split.
  - apply (proj1 (compute_vk_hash_overflow (firstn 32)
                    (VerificationKey.mk 17 17 1 []))).
    cbn. lia.
  - apply (proj2 (compute_vk_hash_overflow (firstn 32)
                    (VerificationKey.mk 17 (-1) 1 []))).
    cbn. lia.
Defined.

(** ** Splitting a challenge *)

Lemma lor_shiftl_low a b n :
  0 <= n -> Z.lor (a mod 2 ^ n) (Z.shiftl b n) = a mod 2 ^ n + b * 2 ^ n.
Proof.
  intros Hn. rewrite <- (Z.shiftl_mul_pow2 b n Hn), <- Z.add_lor_land.
  assert (E : Z.land (a mod 2 ^ n) (Z.shiftl b n) = 0).
  { apply Z.bits_inj'. intros i Hi.
    rewrite Z.land_spec, Z.bits_0.
    destruct (Z.lt_ge_cases i n) as [Hlt|Hge].
    - rewrite (Z.shiftl_spec_low b n i Hlt). apply andb_false_r.
    - rewrite Z.mod_pow2_bits_high by lia. reflexivity. }
  rewrite E. lia.
Qed.

Lemma split_challenge_total challenge :
  split_challenge challenge
  = Ok (be_digits 32 (int_from_bytes challenge mod 2 ^ 127),
        be_digits 32 ((int_from_bytes challenge / 2 ^ 127) mod 2 ^ 127)).
Proof.
  unfold split_challenge. cbv zeta.
  change (Z.shiftl 1 127 - 1) with (Z.ones 127).
  rewrite !Z.land_ones, Z.shiftr_div_pow2 by lia.
  assert (B : forall x, 0 <= x mod 2 ^ 127 < 256 ^ Z.of_nat 32).
  { intros x. pose proof (Z.mod_pos_bound x (2 ^ 127) eq_refl).
    assert (2 ^ 127 < 256 ^ Z.of_nat 32) by reflexivity. lia. }
  rewrite !int_to_bytes_ok by apply B. reflexivity.
Qed.

(** X11.  [split_challenge] never fails, on input of any length: it returns
    two 32-byte strings whose values are below [2^127] and recombine to the
    input's value modulo [2^254]; the bits from 254 on are dropped. *)
Theorem split_challenge_spec (challenge : bytes) :
  exists lo hi,
    split_challenge challenge = Ok (lo, hi)
    /\ length lo = 32%nat /\ length hi = 32%nat
    /\ 0 <= int_from_bytes lo < 2 ^ 127
    /\ 0 <= int_from_bytes hi < 2 ^ 127
    /\ int_from_bytes lo + 2 ^ 127 * int_from_bytes hi
       = int_from_bytes challenge mod 2 ^ 254.
Proof.
  set (v := int_from_bytes challenge).
  assert (B : forall x, 0 <= x mod 2 ^ 127 < 256 ^ Z.of_nat 32).
  { intros x. pose proof (Z.mod_pos_bound x (2 ^ 127) eq_refl).
    assert (2 ^ 127 < 256 ^ Z.of_nat 32) by reflexivity. lia. }
  exists (be_digits 32 (v mod 2 ^ 127)),
         (be_digits 32 ((v / 2 ^ 127) mod 2 ^ 127)).
  split; [apply split_challenge_total|].
  rewrite !length_be_digits, !int_from_be_digits by apply B.
  split; [reflexivity|]. split; [reflexivity|].
  split; [apply Z.mod_pos_bound; reflexivity|].
  split; [apply Z.mod_pos_bound; reflexivity|].
  change (2 ^ 254) with (2 ^ 127 * 2 ^ 127).
  rewrite Z.rem_mul_r; [reflexivity|discriminate|reflexivity].
Qed.

(** X12.  For a challenge below [2^254], as every reduced field element is,
    [lo | (hi << 127)] is the challenge. *)
Theorem split_challenge_recombine (challenge lo hi : bytes) :
  int_from_bytes challenge < 2 ^ 254 ->
  split_challenge challenge = Ok (lo, hi) ->
  Z.lor (int_from_bytes lo) (Z.shiftl (int_from_bytes hi) 127)
  = int_from_bytes challenge.
Proof.
  intros Hv H. rewrite split_challenge_total in H.
  assert (B : forall x, 0 <= x mod 2 ^ 127 < 256 ^ Z.of_nat 32).
  { intros x. pose proof (Z.mod_pos_bound x (2 ^ 127) eq_refl).
    assert (2 ^ 127 < 256 ^ Z.of_nat 32) by reflexivity. lia. }
  assert (Hlo : lo = be_digits 32 (int_from_bytes challenge mod 2 ^ 127))
    by congruence.
  assert (Hhi : hi = be_digits 32 ((int_from_bytes challenge / 2 ^ 127) mod 2 ^ 127))
    by congruence.
  rewrite Hlo, Hhi, !int_from_be_digits by apply B.
  rewrite lor_shiftl_low by lia.
  pose proof (int_from_bytes_range challenge) as [H0 _].
  rewrite <- (Z.mod_small (int_from_bytes challenge) (2 ^ 254)) at 3 by lia.
  change (2 ^ 254) with (2 ^ 127 * 2 ^ 127).
  rewrite Z.rem_mul_r; [lia|discriminate|reflexivity].
Qed.

Lemma split_challenge_recombine_witness :
  Z.lor (int_from_bytes (be_digits 32 2))
        (Z.shiftl (int_from_bytes (be_digits 32 0)) 127)
  = int_from_bytes two_fr.
Proof.
  apply (split_challenge_recombine two_fr); vm_compute; reflexivity.
Defined.

(** ** Public inputs *)

Lemma public_input_lines (data : bytes) :
  fold_left
    (fun lines i =>
       let pi := py_slice data (i * 32) ((i + 1) * 32) in
       let value := int_from_bytes pi in
       lines ++ [(value, pi)])
    (py_range 0 (len data / 32)) []
  = map (fun i => (int_from_bytes (firstn 32 (skipn (32 * i) data)),
                   firstn 32 (skipn (32 * i) data)))
        (seq 0 (Z.to_nat (len data / 32))).
Proof.
  rewrite (fold_left_snoc_map
             (fun i => (int_from_bytes (py_slice data (i * 32) ((i + 1) * 32)),
                        py_slice data (i * 32) ((i + 1) * 32)))).
  cbn [app]. unfold py_range. rewrite map_map, Z.sub_0_r.
  apply map_ext_in. intros k Hk. apply in_seq in Hk.
  pose proof (Z.mul_div_le (len data) 32 eq_refl).
  pose proof (len_nonneg data).
  assert (Z.of_nat k < len data / 32) by lia.
  rewrite py_slice_in_range by lia.
  replace (Z.to_nat ((0 + Z.of_nat k + 1) * 32 - (0 + Z.of_nat k) * 32))
    with 32%nat by lia.
  replace (Z.to_nat ((0 + Z.of_nat k) * 32)) with (32 * k)%nat by lia.
  reflexivity.
Qed.

(** X13.  [validate_public_inputs] reports [len(data) // 32] inputs whatever
    the key announces, and never fails: the chunks reported are the
    consecutive 32-byte slices of the file, trailing bytes beyond a multiple
    of 32 are ignored, and each value is the plain big-endian integer of its
    chunk, in [[0, 2^256)], not reduced. *)
Theorem validate_public_inputs_spec (data : bytes) (vk : VerificationKey.t) :
  let lines := snd (validate_public_inputs data vk) in
  fst (validate_public_inputs data vk) = VerificationKey.num_public_inputs vk * 32
  /\ len lines = len data / 32
  /\ concat (map snd lines) = firstn (32 * Z.to_nat (len data / 32)) data
  /\ Forall (fun line => len (snd line) = 32
                         /\ fst line = int_from_bytes (snd line)
                         /\ 0 <= fst line < 2 ^ 256) lines.
Proof.
  unfold validate_public_inputs. cbv zeta. cbn [fst snd].
  rewrite public_input_lines.
  pose proof (Z.mul_div_le (len data) 32 eq_refl) as Hle.
  pose proof (len_nonneg data) as H0.
  assert (Hq : 0 <= len data / 32) by (apply Z.div_pos; lia).
  split; [reflexivity|]. split; [|split].
  - unfold len at 1. rewrite length_map, length_seq. lia.
  - rewrite map_map. cbn [snd].
    rewrite (concat_chunks_from 32 data). now rewrite Nat.mul_0_r.
  - apply Forall_forall. intros line Hin.
    apply in_map_iff in Hin. destruct Hin as (i & <- & Hi).
    apply in_seq in Hi. cbn [fst snd].
    assert (Hlen : length (firstn 32 (skipn (32 * i) data)) = 32%nat).
    { apply length_chunk. unfold len in *. lia. }
    split; [unfold len; lia|]. split; [reflexivity|].
    pose proof (int_from_bytes_range (firstn 32 (skipn (32 * i) data))) as Hr.
    unfold len in Hr. rewrite Hlen in Hr.
    change (256 ^ Z.of_nat 32) with (2 ^ 256) in Hr. exact Hr.
Qed.

(** ** Sections of a decoded proof *)

Lemma proof_from_bytes_inv data log_n is_zk p :
  Proof.from_bytes data log_n is_zk = Ok p ->
  len data = 32 * Proof.expected_fr_count log_n is_zk
  /\ p = Proof.mk
           (map (fun i => firstn 32 (skipn (32 * i) data))
                (seq 0 (Z.to_nat (Proof.expected_fr_count log_n is_zk))))
           log_n is_zk.
Proof.
  intros H.
  destruct (Z.eq_dec (len data mod 32) 0) as [Hm|Hm].
  - destruct (Z.eq_dec (len data / 32) (Proof.expected_fr_count log_n is_zk))
      as [Hd|Hd].
    + assert (Hlen : len data = 32 * Proof.expected_fr_count log_n is_zk).
      { pose proof (Z.div_mod (len data) 32). lia. }
      rewrite proof_from_bytes_ok in H by exact Hlen. split; congruence.
    + rewrite proof_from_bytes_count in H by assumption. discriminate H.
  - rewrite proof_from_bytes_misaligned in H by assumption. discriminate H.
Qed.

Lemma firstn_seq m : forall a k, (m <= k)%nat -> firstn m (seq a k) = seq a m.
Proof.
  induction m as [|m IH]; intros a k Hk; [reflexivity|].
  destruct k as [|k]; [lia|]. cbn [seq firstn]. rewrite IH by lia. reflexivity.
Qed.

Lemma py_index_out {A} (l : list A) i :
  0 <= i -> len l <= i -> py_index l i = Raise IndexError.
Proof.
  intros Hi Hl. unfold py_index. cbv zeta.
  assert (E : (i <? 0) = false) by (apply Z.ltb_ge; lia). rewrite E, E.
  assert (N : nth_error l (Z.to_nat i) = None)
    by (apply nth_error_None; unfold len in Hl; lia).
  now rewrite N.
Qed.

Section DecodedChunks.

Variable data : bytes.

Local Notation "'chunk'" := (fun i : nat => firstn 32 (skipn (32 * i) data)).

Lemma py_slice_chunks n a b :
  0 <= a <= b -> b <= Z.of_nat n ->
  py_slice (map chunk (seq 0 n)) a b
  = map chunk (seq (Z.to_nat a) (Z.to_nat (b - a))).
Proof.
  intros Hab Hb.
  rewrite py_slice_in_range
    by (trivial; unfold len; rewrite length_map, length_seq; exact Hb).
  rewrite skipn_map, firstn_map, skipn_seq, firstn_seq by lia. reflexivity.
Qed.

Lemma concat_chunk_run a m :
  0 <= a -> 0 <= m -> 32 * (a + m) <= len data ->
  concat (map chunk (seq (Z.to_nat a) (Z.to_nat m)))
  = py_slice data (32 * a) (32 * (a + m)).
Proof.
  intros Ha Hm Hlen.
  rewrite (concat_chunks_from 32 data), py_slice_in_range by lia.
  f_equal; [|f_equal]; lia.
Qed.

Lemma py_index_chunks n i :
  0 <= i < Z.of_nat n ->
  py_index (map chunk (seq 0 n)) i = Ok (chunk (Z.to_nat i)).
Proof.
  intros Hi. apply py_index_nth; [lia|]. apply nth_error_chunks. lia.
Qed.

Lemma chunk_pair i :
  0 <= i -> 32 * (i + 2) <= len data ->
  chunk (Z.to_nat i) ++ chunk (Z.to_nat (i + 1))
  = py_slice data (32 * i) (32 * i + 64).
Proof.
  intros Hi Hlen. rewrite py_slice_in_range by lia.
  replace (Z.to_nat (32 * i + 64 - 32 * i)) with (32 + 32)%nat by lia.
  rewrite firstn_plus, skipn_skipn.
  replace (32 * Z.to_nat i)%nat with (Z.to_nat (32 * i)) by lia.
  replace (32 * Z.to_nat (i + 1))%nat with (32 + Z.to_nat (32 * i))%nat by lia.
  reflexivity.
Qed.

Lemma concat_rounds b u n : forall k,
  concat (map (fun r => map chunk (seq (b + r * u) u)) (seq k n))
  = map chunk (seq (b + k * u) (n * u)).
Proof.
  induction n as [|n IH]; intros k; [reflexivity|].
  cbn [seq map concat]. rewrite IH, <- map_app.
  replace (b + S k * u)%nat with (b + k * u + u)%nat by lia.
  rewrite <- seq_app. reflexivity.
Qed.

End DecodedChunks.

(** X14.  In a proof decoded with [log_n >= 0], the pairing point object is
    16 elements, the first 512 bytes of the buffer. *)
Theorem pairing_point_object_decoded (data : bytes) (log_n : Z) (is_zk : bool)
        (p : Proof.t) :
  Proof.from_bytes data log_n is_zk = Ok p -> 0 <= log_n ->
  len (Proof.pairing_point_object p) = 16
  /\ concat (Proof.pairing_point_object p) = py_slice data 0 512.
Proof.
  intros H Hlog. apply proof_from_bytes_inv in H. destruct H as [Hlen ->].
  rewrite expected_fr_count_closed in *.
  unfold Proof.pairing_point_object. cbn [Proof.data].
  rewrite py_slice_chunks by (destruct is_zk; lia).
  change (16 - 0) with 16.
  split.
  - unfold len. rewrite length_map, length_seq. reflexivity.
  - rewrite (concat_chunk_run data 0 16) by (destruct is_zk; lia). reflexivity.
Qed.

Lemma pairing_point_object_decoded_witness :
  len (Proof.pairing_point_object decoded_libra_zero) = 16
  /\ concat (Proof.pairing_point_object decoded_libra_zero)
     = py_slice proof_libra_zero 0 512.
Proof.
  apply (pairing_point_object_decoded proof_libra_zero 2 true).
  - vm_compute. reflexivity.
  - lia.
Defined.

(** X15.  In a decoded proof, [wire_commitment idx] for [idx >= 0] is the
    64 bytes of the buffer from offset [512 + 64 * idx], when elements
    [16 + 2 * idx] and the next exist, and raises [IndexError] otherwise;
    there is no upper bound of 8 on [idx]. *)
Theorem wire_commitment_decoded (data : bytes) (log_n : Z) (is_zk : bool)
        (p : Proof.t) (idx : Z) :
  Proof.from_bytes data log_n is_zk = Ok p -> 0 <= idx ->
  Proof.wire_commitment p idx
  = if 2 * idx + 18 <=? len (Proof.data p)
    then Ok (py_slice data (512 + 64 * idx) (576 + 64 * idx))
    else Raise IndexError.
Proof.
  intros H Hidx. apply proof_from_bytes_inv in H. destruct H as [Hlen ->].
  pose proof (len_nonneg data) as Hpos.
  set (e := Proof.expected_fr_count log_n is_zk) in *.
  unfold Proof.wire_commitment. cbv zeta. cbn [Proof.data].
  assert (Hn : @len bytes (map (fun i => firstn 32 (skipn (32 * i) data))
                               (seq 0 (Z.to_nat e))) = e)
    by (unfold len; rewrite length_map, length_seq; lia).
  rewrite Hn.
  destruct (Z.leb_spec (2 * idx + 18) e) as [Hin|Hout].
  - rewrite !py_index_chunks by lia. cbn [bind].
    rewrite (chunk_pair data (16 + idx * 2)) by lia.
    do 2 f_equal; lia.
  - destruct (Z.lt_ge_cases (16 + idx * 2) e) as [H1|H1].
    + rewrite py_index_chunks by lia. cbn [bind].
      rewrite py_index_out by lia. reflexivity.
    + rewrite py_index_out by lia. reflexivity.
Qed.

Lemma wire_commitment_decoded_witness :
  Proof.wire_commitment decoded_libra_zero 7
  = if 2 * 7 + 18 <=? len (Proof.data decoded_libra_zero)
    then Ok (py_slice proof_libra_zero (512 + 64 * 7) (576 + 64 * 7))
    else Raise IndexError.
Proof.
  apply (wire_commitment_decoded proof_libra_zero 2 true).
  - vm_compute. reflexivity.
  - lia.
Defined.

(** X16.  In a proof decoded with [log_n >= 0], [libra_sum] is the 32 bytes
    at offset 1088 for a ZK proof and [None] for a non-ZK proof. *)
Theorem libra_sum_decoded (data : bytes) (log_n : Z) (is_zk : bool)
        (p : Proof.t) :
  Proof.from_bytes data log_n is_zk = Ok p -> 0 <= log_n ->
  Proof.libra_sum p
  = Ok (if is_zk then Some (py_slice data 1088 1120) else None).
Proof.
  intros H Hlog. apply proof_from_bytes_inv in H. destruct H as [Hlen ->].
  rewrite expected_fr_count_closed in *.
  unfold Proof.libra_sum. cbn [Proof.data Proof.is_zk].
  destruct is_zk; cbn [negb]; [|reflexivity]. cbv zeta.
  rewrite py_index_chunks by lia. cbn [bind].
  rewrite py_slice_in_range by lia. reflexivity.
Qed.

Lemma libra_sum_decoded_witness :
  Proof.libra_sum decoded_libra_two
  = Ok (if true then Some (py_slice proof_libra_two 1088 1120) else None).
Proof.
  apply (libra_sum_decoded proof_libra_two 2 true).
  - vm_compute. reflexivity.
  - lia.
Defined.

(** X17.  In a decoded proof, the univariate of a round
    [0 <= round < log_n] has 9 (ZK) or 8 (non-ZK) elements, the bytes of the
    buffer from element [base + round * u] to element
    [base + (round + 1) * u], where [base] is 35 (ZK) or 32. *)
Theorem sumcheck_univariate_decoded (data : bytes) (log_n : Z) (is_zk : bool)
        (p : Proof.t) (round : Z) :
  Proof.from_bytes data log_n is_zk = Ok p -> 0 <= round < log_n ->
  let u := if is_zk then 9 else 8 in
  let base := if is_zk then 35 else 32 in
  len (Proof.sumcheck_univariate p round) = u
  /\ concat (Proof.sumcheck_univariate p round)
     = py_slice data (32 * (base + round * u)) (32 * (base + (round + 1) * u)).
Proof.
  intros H Hround u base.
  apply proof_from_bytes_inv in H. destruct H as [Hlen ->].
  rewrite expected_fr_count_closed in *.
  unfold Proof.sumcheck_univariate. cbn [Proof.data Proof.is_zk]. cbv zeta.
  destruct is_zk; subst u base.
  - rewrite py_slice_chunks by lia. split.
    + unfold len. rewrite length_map, length_seq. lia.
    + replace (16 + 16 + 3 + round * 9 + 9 - (16 + 16 + 3 + round * 9)) with 9 by lia.
      rewrite concat_chunk_run by lia. f_equal; lia.
  - rewrite py_slice_chunks by lia. split.
    + unfold len. rewrite length_map, length_seq. lia.
    + replace (16 + 16 + round * 8 + 8 - (16 + 16 + round * 8)) with 8 by lia.
      rewrite concat_chunk_run by lia. f_equal; lia.
Qed.

Lemma sumcheck_univariate_decoded_witness :
  len (Proof.sumcheck_univariate decoded_libra_zero 1) = 9
  /\ concat (Proof.sumcheck_univariate decoded_libra_zero 1)
     = py_slice proof_libra_zero (32 * (35 + 1 * 9)) (32 * (35 + (1 + 1) * 9)).
Proof.
  apply (sumcheck_univariate_decoded proof_libra_zero 2 true).
  - vm_compute. reflexivity.
  - lia.
Defined.

(** X18.  In a proof decoded with [log_n >= 0], the univariates of rounds
    [0 .. log_n - 1] followed by the evaluations are one contiguous run of
    elements, without gap or overlap, starting at element 35 (ZK) or 32; the
    evaluations are 41 (ZK) or 40 elements, and [3 * log_n + 14] (ZK) or
    [3 * log_n + 3] elements follow them. *)
Theorem sumcheck_sections_tile (data : bytes) (log_n : Z) (is_zk : bool)
        (p : Proof.t) :
  Proof.from_bytes data log_n is_zk = Ok p -> 0 <= log_n ->
  let u := if is_zk then 9 else 8 in
  let base := if is_zk then 35 else 32 in
  let ne := if is_zk then 41 else 40 in
  concat (map (Proof.sumcheck_univariate p) (py_range 0 log_n))
    ++ Proof.sumcheck_evaluations p
  = py_slice (Proof.data p) base (base + log_n * u + ne)
  /\ len (Proof.sumcheck_evaluations p) = ne
  /\ len (Proof.data p) - (base + log_n * u + ne)
     = 3 * log_n + (if is_zk then 14 else 3).
Proof.
  intros H Hlog u base ne.
  apply proof_from_bytes_inv in H. destruct H as [Hlen ->].
  rewrite expected_fr_count_closed in *.
  cbn [Proof.data].
  assert (Huni : map (Proof.sumcheck_univariate
                        (Proof.mk (map (fun i => firstn 32 (skipn (32 * i) data))
                                       (seq 0 (Z.to_nat (if is_zk then 12 * log_n + 90
                                                         else 11 * log_n + 75))))
                                  log_n is_zk))
                     (py_range 0 log_n)
                 = map (fun r => map (fun i => firstn 32 (skipn (32 * i) data))
                                     (seq (Z.to_nat base + r * Z.to_nat u) (Z.to_nat u)))
                       (seq 0 (Z.to_nat log_n))).
  { unfold py_range. rewrite map_map, Z.sub_0_r.
    apply map_ext_in. intros k Hk. apply in_seq in Hk.
    unfold Proof.sumcheck_univariate. cbn [Proof.data Proof.is_zk]. cbv zeta.
    subst u base. destruct is_zk; rewrite py_slice_chunks by lia;
      f_equal; f_equal; lia. }
  rewrite Huni, concat_rounds.
  unfold Proof.sumcheck_evaluations. cbn [Proof.data Proof.is_zk Proof.log_n].
  cbv zeta. subst u base ne.
  destruct is_zk; rewrite !py_slice_chunks by lia.
  - split; [|split].
    + rewrite <- map_app. f_equal.
      replace (Z.to_nat (35 + log_n * 9 + 41 - 35))
        with (Z.to_nat log_n * Z.to_nat 9 + Z.to_nat 41)%nat by lia.
      rewrite seq_app. f_equal. f_equal; lia.
    + unfold len. rewrite length_map, length_seq. lia.
    + unfold len. rewrite length_map, length_seq. lia.
  - split; [|split].
    + rewrite <- map_app. f_equal.
      replace (Z.to_nat (32 + log_n * 8 + 40 - 32))
        with (Z.to_nat log_n * Z.to_nat 8 + Z.to_nat 40)%nat by lia.
      rewrite seq_app. f_equal. f_equal; lia.
    + unfold len. rewrite length_map, length_seq. lia.
    + unfold len. rewrite length_map, length_seq. lia.
Qed.

Lemma sumcheck_sections_tile_witness :
  concat (map (Proof.sumcheck_univariate decoded_libra_zero) (py_range 0 2))
    ++ Proof.sumcheck_evaluations decoded_libra_zero
  = py_slice (Proof.data decoded_libra_zero) 35 (35 + 2 * 9 + 41)
  /\ len (Proof.sumcheck_evaluations decoded_libra_zero) = 41
  /\ len (Proof.data decoded_libra_zero) - (35 + 2 * 9 + 41) = 3 * 2 + 14.
Proof.
  apply (sumcheck_sections_tile proof_libra_zero 2 true).
  - vm_compute. reflexivity.
  - lia.
Defined.

(** X19.  [sumcheck_univariate] does not check its round: at
    [round = log_n] it returns the first 9 (ZK) or 8 evaluations. *)
Theorem sumcheck_univariate_past_last_round (p : Proof.t) :
  0 <= Proof.log_n p ->
  Proof.sumcheck_univariate p (Proof.log_n p)
  = firstn (if Proof.is_zk p then 9 else 8) (Proof.sumcheck_evaluations p).
Proof.
  intros Hlog.
  unfold Proof.sumcheck_univariate, Proof.sumcheck_evaluations, py_slice,
    slice_bound. cbv zeta.
  pose proof (len_nonneg (Proof.data p)) as Hpos.
  rewrite firstn_firstn. f_equal.
  destruct (Proof.is_zk p);
    repeat match goal with
           | |- context [?a <? 0] => destruct (Z.ltb_spec a 0)
           end; lia.
Qed.

Lemma sumcheck_univariate_past_last_round_witness :
  Proof.sumcheck_univariate decoded_libra_zero (Proof.log_n decoded_libra_zero)
  = firstn (if Proof.is_zk decoded_libra_zero then 9 else 8)
           (Proof.sumcheck_evaluations decoded_libra_zero).
Proof. apply sumcheck_univariate_past_last_round. cbn. lia. Defined.

(** ** The sumcheck check on decoded proofs *)

Lemma libra_sum_chunks (data : bytes) n log_n :
  (34 < n)%nat ->
  exists b,
    Proof.libra_sum
      (Proof.mk (map (fun i => firstn 32 (skipn (32 * i) data)) (seq 0 n))
                log_n true) = Ok (Some b).
Proof.
  intros Hn. unfold Proof.libra_sum. cbn [Proof.is_zk Proof.data negb]. cbv zeta.
  rewrite py_index_chunks by lia. cbn [bind]. eexists. reflexivity.
Qed.

(** X20.  On a proof decoded with [log_n >= 0] the sumcheck check never
    raises, whichever flag it is given, and the first thing it reports is the
    two field elements at elements [base] and [base + 1] of the buffer with
    their sum. *)
Theorem sumcheck_round_zero_never_raises (data : bytes) (log_n : Z)
        (is_zk flag : bool) (p : Proof.t) :
  Proof.from_bytes data log_n is_zk = Ok p -> 0 <= log_n ->
  let base := if is_zk then 35 else 32 in
  let u0 := fr_from_bytes (py_slice data (32 * base) (32 * base + 32)) in
  let u1 := fr_from_bytes (py_slice data (32 * base + 32) (32 * base + 64)) in
  exists rest,
    validate_sumcheck_round_zero p flag
    = Ok (RoundZero u0 u1 (fr_add u0 u1) :: rest).
Proof.
  intros H Hlog base u0 u1.
  apply proof_from_bytes_inv in H. destruct H as [Hlen ->].
  rewrite expected_fr_count_closed in *.
  unfold validate_sumcheck_round_zero. cbv zeta.
  unfold Proof.sumcheck_univariate. cbn [Proof.data Proof.is_zk]. cbv zeta.
  subst u0 u1 base.
  destruct is_zk; rewrite py_slice_chunks by lia;
    rewrite !py_slice_in_range by lia.
  - change (seq (Z.to_nat (16 + 16 + 3 + 0 * 9))
                (Z.to_nat (16 + 16 + 3 + 0 * 9 + 9 - (16 + 16 + 3 + 0 * 9))))
      with (35 :: 36 :: seq 37 7)%nat.
    cbn [map]. rewrite py_index_0, py_index_1. cbn [bind app].
    change (Z.to_nat (32 * 35 + 32 - 32 * 35)) with 32%nat.
    change (Z.to_nat (32 * 35 + 64 - (32 * 35 + 32))) with 32%nat.
    change (Z.to_nat (32 * 35)) with (32 * 35)%nat.
    change (Z.to_nat (32 * 35 + 32)) with (32 * 36)%nat.
    destruct flag; cbn [bind].
    + destruct (libra_sum_chunks data (Z.to_nat (12 * log_n + 90)) log_n)
        as [b Eb]; [lia|].
      rewrite Eb. cbn [bind]. destruct b;
        repeat match goal with
               | |- context [if ?c then _ else _] => destruct c
               end; eexists; reflexivity.
    + repeat match goal with
             | |- context [if ?c then _ else _] => destruct c
             end; eexists; reflexivity.
  - change (seq (Z.to_nat (16 + 16 + 0 * 8))
                (Z.to_nat (16 + 16 + 0 * 8 + 8 - (16 + 16 + 0 * 8))))
      with (32 :: 33 :: seq 34 6)%nat.
    cbn [map]. rewrite py_index_0, py_index_1. cbn [bind app].
    change (Z.to_nat (32 * 32 + 32 - 32 * 32)) with 32%nat.
    change (Z.to_nat (32 * 32 + 64 - (32 * 32 + 32))) with 32%nat.
    change (Z.to_nat (32 * 32)) with (32 * 32)%nat.
    change (Z.to_nat (32 * 32 + 32)) with (32 * 33)%nat.
    unfold Proof.libra_sum. cbn [Proof.is_zk negb].
    destruct flag; cbn [bind];
      repeat match goal with
             | |- context [if ?c then _ else _] => destruct c
             end; eexists; reflexivity.
Qed.

Lemma sumcheck_round_zero_never_raises_witness :
  exists rest,
    validate_sumcheck_round_zero decoded_libra_two false
    = Ok (RoundZero
            (fr_from_bytes (py_slice proof_libra_two (32 * 35) (32 * 35 + 32)))
            (fr_from_bytes (py_slice proof_libra_two (32 * 35 + 32) (32 * 35 + 64)))
            (fr_add
               (fr_from_bytes (py_slice proof_libra_two (32 * 35) (32 * 35 + 32)))
               (fr_from_bytes (py_slice proof_libra_two (32 * 35 + 32) (32 * 35 + 64))))
          :: rest).
Proof.
  apply (sumcheck_round_zero_never_raises proof_libra_two 2 true false).
  - vm_compute. reflexivity.
  - lia.
Defined.

(** X21.  When the flag is [True] but the proof is non-ZK, the check reports
    the two coefficients and their sum and nothing else: [libra_sum] is
    [None], so neither the libra comparison nor the zero-sum test is made. *)
Theorem sumcheck_round_zero_flag_mismatch (p : Proof.t) (b0 b1 : bytes)
        (rest : list bytes) :
  Proof.is_zk p = false ->
  Proof.sumcheck_univariate p 0 = b0 :: b1 :: rest ->
  validate_sumcheck_round_zero p true
  = Ok [RoundZero (fr_from_bytes b0) (fr_from_bytes b1)
                  (fr_add (fr_from_bytes b0) (fr_from_bytes b1))].
Proof.
  intros Hzk Huni. unfold validate_sumcheck_round_zero. cbv zeta.
  rewrite Huni, py_index_0, py_index_1. cbn [bind].
  unfold Proof.libra_sum. rewrite Hzk. reflexivity.
Qed.

Lemma sumcheck_round_zero_flag_mismatch_witness :
  validate_sumcheck_round_zero
    (Proof.mk (repeat zero_fr 32 ++ [one_fr; one_fr] ++ repeat zero_fr 63) 2 false)
    true
  = Ok [RoundZero (fr_from_bytes one_fr) (fr_from_bytes one_fr)
                  (fr_add (fr_from_bytes one_fr) (fr_from_bytes one_fr))].
Proof.
  apply (sumcheck_round_zero_flag_mismatch _ one_fr one_fr (repeat zero_fr 6));
    reflexivity.
Defined.

(** X22.  With the flag [False] the check never reads the libra sum: it
    reports the coefficients and whether their sum is 0, and the sum is 0
    exactly when [BN254_R] divides the sum of the two encoded integers. *)
Theorem sumcheck_round_zero_non_zk (p : Proof.t) (b0 b1 : bytes)
        (rest : list bytes) :
  Proof.sumcheck_univariate p 0 = b0 :: b1 :: rest ->
  let u0 := fr_from_bytes b0 in
  let u1 := fr_from_bytes b1 in
  validate_sumcheck_round_zero p false
  = Ok [RoundZero u0 u1 (fr_add u0 u1);
        if fr_add u0 u1 =? 0 then SumIsZero else SumNonZero]
  /\ (fr_add u0 u1 = 0 <-> (BN254_R | int_from_bytes b0 + int_from_bytes b1)).
Proof.
  intros Huni u0 u1. split.
  - unfold validate_sumcheck_round_zero. cbv zeta.
    rewrite Huni, py_index_0, py_index_1. cbn [bind]. fold u0 u1.
    destruct (fr_add u0 u1 =? 0); reflexivity.
  - unfold u0, u1, fr_add, fr_from_bytes. rewrite <- Zplus_mod.
    apply Z.mod_divide. discriminate.
Qed.

Lemma sumcheck_round_zero_non_zk_witness :
  validate_sumcheck_round_zero
    (Proof.mk (repeat zero_fr 32 ++ [one_fr; one_fr] ++ repeat zero_fr 63) 2 false)
    false
  = Ok [RoundZero (fr_from_bytes one_fr) (fr_from_bytes one_fr)
                  (fr_add (fr_from_bytes one_fr) (fr_from_bytes one_fr));
        if fr_add (fr_from_bytes one_fr) (fr_from_bytes one_fr) =? 0
        then SumIsZero else SumNonZero]
  /\ (fr_add (fr_from_bytes one_fr) (fr_from_bytes one_fr) = 0
      <-> (BN254_R | int_from_bytes one_fr + int_from_bytes one_fr)).
Proof.
  apply (sumcheck_round_zero_non_zk _ one_fr one_fr (repeat zero_fr 6)).
  reflexivity.
Defined.

(** ** Parameter recovery in general *)

Lemma expected_fr_count_injective l1 l2 z :
  Proof.expected_fr_count l1 z = Proof.expected_fr_count l2 z -> l1 = l2.
Proof. rewrite !expected_fr_count_closed. destruct z; lia. Qed.

Lemma in_py_range a b x : In x (py_range a b) <-> a <= x < b.
Proof.
  unfold py_range. rewrite in_map_iff. split.
  - intros (k & <- & Hk). apply in_seq in Hk. lia.
  - intros Hx. exists (Z.to_nat (x - a)). split; [lia|]. apply in_seq. lia.
Qed.

Lemma detect_log_match size z logs cfg l :
  In l logs -> Proof.expected_fr_count l z * 32 = size ->
  detect_log size z logs cfg = (l, z).
Proof.
  intros Hin Hl. induction logs as [|h logs IH]; [contradiction|].
  cbn [detect_log].
  destruct (Z.eqb_spec (Proof.expected_fr_count h z * 32) size) as [E|E].
  - assert (h = l) by (apply (expected_fr_count_injective h l z); lia).
    now subst.
  - destruct Hin as [->|Hin]; [contradiction|]. now apply IH.
Qed.

Lemma detect_log_no_match size z logs cfg :
  (forall l, In l logs -> Proof.expected_fr_count l z * 32 <> size) ->
  detect_log size z logs cfg = cfg.
Proof.
  intros Hno. induction logs as [|h logs IH]; [reflexivity|].
  cbn [detect_log].
  destruct (Z.eqb_spec (Proof.expected_fr_count h z * 32) size) as [E|E].
  - exfalso. apply (Hno h); [now left|exact E].
  - apply IH. intros l Hl. apply Hno. now right.
Qed.

Lemma detect_log_cases size z logs cfg :
  detect_log size z logs cfg = cfg
  \/ exists l, In l logs /\ Proof.expected_fr_count l z * 32 = size
               /\ detect_log size z logs cfg = (l, z).
Proof.
  induction logs as [|h logs IH]; [now left|].
  cbn [detect_log].
  destruct (Z.eqb_spec (Proof.expected_fr_count h z * 32) size) as [E|E].
  - right. exists h. split; [now left|]. now split.
  - destruct IH as [IH|(l & Hl & Hs & IH)]; [now left|].
    right. exists l. split; [now right|]. now split.
Qed.

(** X23.  In the search range, a ZK and a non-ZK layout have the same size
    for exactly two pairs: [(7, 9)] and [(18, 21)]. *)
Theorem ambiguous_lengths (a b : Z) :
  4 <= a < 30 -> 4 <= b < 30 ->
  (Proof.expected_fr_count a true = Proof.expected_fr_count b false
   <-> (a = 7 /\ b = 9) \/ (a = 18 /\ b = 21)).
Proof. intros Ha Hb. rewrite !expected_fr_count_closed. lia. Qed.

Lemma ambiguous_lengths_witness :
  Proof.expected_fr_count 18 true = Proof.expected_fr_count 21 false
  <-> (18 = 7 /\ 21 = 9) \/ (18 = 18 /\ 21 = 21).
Proof. apply ambiguous_lengths; lia. Defined.

(** X24.  The recovery loop: a non-ZK candidate of the search range that
    matches the size is always the result; a matching ZK candidate is the
    result only when no non-ZK candidate matches; and when no candidate
    matches, the caller's parameters are returned unchanged. *)
Theorem detect_config_spec (size : Z) (cfg : Z * bool) :
  (forall l, 4 <= l < 30 -> Proof.expected_fr_count l false * 32 = size ->
             detect_config size cfg = (l, false))
  /\ (forall l, 4 <= l < 30 -> Proof.expected_fr_count l true * 32 = size ->
                (forall l', 4 <= l' < 30 ->
                            Proof.expected_fr_count l' false * 32 <> size) ->
                detect_config size cfg = (l, true))
  /\ ((forall l z, 4 <= l < 30 -> Proof.expected_fr_count l z * 32 <> size) ->
      detect_config size cfg = cfg).
Proof.
  unfold detect_config. cbn [fold_left]. split; [|split].
  - intros l Hl Hs. apply detect_log_match; [apply in_py_range; exact Hl|exact Hs].
  - intros l Hl Hs Hno.
    rewrite detect_log_no_match
      by (intros l' Hl'; apply Hno; apply in_py_range; exact Hl').
    apply detect_log_match; [apply in_py_range; exact Hl|exact Hs].
  - intros Hno.
    rewrite !detect_log_no_match; [reflexivity| |];
      intros l Hl; apply Hno; apply in_py_range; exact Hl.
Qed.

Lemma detect_config_spec_witness :
  detect_config (294 * 32) (3, false) = (17, true)
  /\ detect_config (262 * 32) (3, true) = (17, false)
  /\ detect_config 33 (3, true) = (3, true).
Proof.
  split; [|split].
  - apply (proj1 (proj2 (detect_config_spec (294 * 32) (3, false))) 17);
      [lia|reflexivity|].
    intros l' Hl'. rewrite expected_fr_count_closed. lia.
  - apply (proj1 (detect_config_spec (262 * 32) (3, true)) 17); [lia|reflexivity].
  - apply (proj2 (proj2 (detect_config_spec 33 (3, true)))).
    intros l z Hl. rewrite expected_fr_count_closed. destruct z; lia.
Defined.

Lemma detect_config_cases size cfg :
  detect_config size cfg = cfg
  \/ (4 <= fst (detect_config size cfg) < 30
      /\ Proof.expected_fr_count (fst (detect_config size cfg))
                                 (snd (detect_config size cfg)) * 32 = size).
Proof.
  unfold detect_config. cbn [fold_left].
  destruct (detect_log_cases size false (py_range 4 30)
              (detect_log size true (py_range 4 30) cfg))
    as [E|(l & Hl & Hs & E)]; rewrite E.
  - destruct (detect_log_cases size true (py_range 4 30) cfg)
      as [E'|(l & Hl & Hs & E')]; rewrite E'; [now left|].
    right. cbn [fst snd]. apply in_py_range in Hl. now split.
  - right. cbn [fst snd]. apply in_py_range in Hl. now split.
Qed.

(** ** [validate_proof_structure] in general *)

(** X25.  When the buffer has the size expected for the caller's
    parameters, [validate_proof_structure] runs no recovery: for
    [log_n >= -4] it returns what [Proof.from_bytes] returns, and for a
    smaller [log_n] the decoded proof is too short for the sections it
    prints and the call ends in [IndexError]. *)
Theorem validate_proof_structure_matching (data : bytes) (log_n : Z)
        (is_zk : bool) :
  len data = 32 * Proof.expected_fr_count log_n is_zk ->
  validate_proof_structure data log_n is_zk
  = if -4 <=? log_n then Proof.from_bytes data log_n is_zk
    else Raise IndexError.
Proof.
  intros Hlen. pose proof (len_nonneg data) as Hpos.
  unfold validate_proof_structure. cbv zeta.
  assert (E : (len data =? Proof.expected_fr_count log_n is_zk * 32) = true)
    by (apply Z.eqb_eq; lia).
  rewrite E. cbn [negb].
  rewrite proof_from_bytes_ok by exact Hlen. cbn [bind].
  rewrite expected_fr_count_closed in *.
  destruct (Z.leb_spec (-4) log_n) as [Hge|Hlt].
  - set (n := Z.to_nat (if is_zk then 12 * log_n + 90 else 11 * log_n + 75)).
    assert (Hn : (is_zk = true -> 34 < n)%nat /\ (21 < n)%nat)
      by (subst n; destruct is_zk; split; intros; lia).
    destruct Hn as [Hzk Hn].
    destruct (wire_commitment_chunks data n log_n is_zk 0) as [b0 E0]; [lia|lia|].
    destruct (wire_commitment_chunks data n log_n is_zk 1) as [b1 E1]; [lia|lia|].
    destruct (wire_commitment_chunks data n log_n is_zk 2) as [b2 E2]; [lia|lia|].
    rewrite E0, E1, E2. cbn [bind].
    destruct is_zk; [|reflexivity].
    destruct (libra_sum_chunks data n log_n (Hzk eq_refl)) as [b E3].
    rewrite E3. reflexivity.
  - destruct is_zk.
    + assert (Hc : log_n = -5 \/ log_n = -6 \/ log_n = -7) by lia.
      destruct Hc as [-> | [-> | ->]]; vm_compute; reflexivity.
    + assert (Hc : log_n = -5 \/ log_n = -6) by lia.
      destruct Hc as [-> | ->]; vm_compute; reflexivity.
Qed.

Lemma validate_proof_structure_matching_witness :
  validate_proof_structure (zero_bytes 640) (-5) false
  = if -4 <=? -5 then Proof.from_bytes (zero_bytes 640) (-5) false
    else Raise IndexError.
Proof.
  apply validate_proof_structure_matching. vm_compute. reflexivity.
Defined.

(** X26.  [validate_proof_structure] fails on the alignment assertion for
    every buffer whose length is not a multiple of 32, whatever the
    parameters; and when the length is aligned but matches neither the
    caller's parameters nor a candidate of the search range, it fails on the
    count assertion, which reports the caller's expected count. *)
Theorem validate_proof_structure_rejects (data : bytes) (log_n : Z)
        (is_zk : bool) :
  (len data mod 32 <> 0 ->
   validate_proof_structure data log_n is_zk
   = Raise (AssertionError ProofAlignment))
  /\ (len data mod 32 = 0 ->
      (forall l z, (l = log_n /\ z = is_zk) \/ 4 <= l < 30 ->
                   Proof.expected_fr_count l z * 32 <> len data) ->
      validate_proof_structure data log_n is_zk
      = Raise (AssertionError
                 (FrCount (Proof.expected_fr_count log_n is_zk) (len data / 32)))).
Proof.
  split.
  - intros Hm. unfold validate_proof_structure. cbv zeta.
    destruct (if negb (len data =? Proof.expected_fr_count log_n is_zk * 32)
              then detect_config (len data) (log_n, is_zk)
              else (log_n, is_zk)) as [l z].
    rewrite proof_from_bytes_misaligned by exact Hm. reflexivity.
  - intros Hm Hno. unfold validate_proof_structure. cbv zeta.
    assert (E : (len data =? Proof.expected_fr_count log_n is_zk * 32) = false).
    { apply Z.eqb_neq. intros E. apply (Hno log_n is_zk); [now left|now symmetry]. }
    rewrite E. cbn [negb].
    unfold detect_config. cbn [fold_left].
    rewrite !detect_log_no_match
      by (intros l Hl; apply Hno; right; apply in_py_range; exact Hl).
    rewrite proof_from_bytes_count; [reflexivity|exact Hm|].
    intros Hd. apply (Hno log_n is_zk); [now left|].
    pose proof (Z.div_mod (len data) 32). lia.
Qed.

Lemma validate_proof_structure_rejects_witness :
  validate_proof_structure (zero_bytes 33) 17 true
  = Raise (AssertionError ProofAlignment)
  /\ validate_proof_structure (zero_bytes 64) 17 true
     = Raise (AssertionError
                (FrCount (Proof.expected_fr_count 17 true)
                         (len (zero_bytes 64) / 32))).
Proof.
  split.
  - apply (proj1 (validate_proof_structure_rejects (zero_bytes 33) 17 true)).
    vm_compute. discriminate.
  - apply (proj2 (validate_proof_structure_rejects (zero_bytes 64) 17 true)).
    + vm_compute. reflexivity.
    + intros l z Hl. rewrite expected_fr_count_closed.
      change (len (zero_bytes 64)) with 64. destruct z; lia.
Defined.

(** X27.  Whenever [validate_proof_structure] returns a proof, the buffer
    has exactly the size of that proof's parameters, the proof's elements
    concatenate to the buffer, and the parameters are the caller's or have
    [log_n] in the search range [[4, 30)]. *)
Theorem validate_proof_structure_sound (data : bytes) (log_n : Z)
        (is_zk : bool) (p : Proof.t) :
  validate_proof_structure data log_n is_zk = Ok p ->
  len data = 32 * Proof.expected_fr_count (Proof.log_n p) (Proof.is_zk p)
  /\ concat (Proof.data p) = data
  /\ ((Proof.log_n p = log_n /\ Proof.is_zk p = is_zk)
      \/ 4 <= Proof.log_n p < 30).
Proof.
  unfold validate_proof_structure. cbv zeta. intros H.
  assert (Hcfg : exists l z,
             (if negb (len data =? Proof.expected_fr_count log_n is_zk * 32)
              then detect_config (len data) (log_n, is_zk)
              else (log_n, is_zk)) = (l, z)
             /\ ((l = log_n /\ z = is_zk) \/ 4 <= l < 30)).
  { destruct (negb (len data =? Proof.expected_fr_count log_n is_zk * 32)).
    - destruct (detect_config_cases (len data) (log_n, is_zk)) as [E|[Hr _]].
      + rewrite E. exists log_n, is_zk. split; [reflexivity|now left].
      + destruct (detect_config (len data) (log_n, is_zk)) as [l z].
        exists l, z. split; [reflexivity|now right].
    - exists log_n, is_zk. split; [reflexivity|now left]. }
  destruct Hcfg as (l & z & Ecfg & Hrange). rewrite Ecfg in H.
  destruct (Proof.from_bytes data l z) as [p0|e] eqn:Hfb; [|discriminate H].
  cbn [bind] in H.
  assert (p0 = p).
  { repeat match type of H with
           | bind ?r _ = _ => destruct r; cbn [bind] in H; [|discriminate H]
           end.
    congruence. }
  subst p0. apply proof_from_bytes_inv in Hfb. destruct Hfb as [Hlen ->].
  cbn [Proof.log_n Proof.is_zk Proof.data].
  split; [exact Hlen|]. split; [|exact Hrange].
  apply concat_chunks. unfold len in Hlen. lia.
Qed.

Lemma validate_proof_structure_sound_witness :
  len (zero_bytes 5568)
  = 32 * Proof.expected_fr_count
           (Proof.log_n (Proof.mk (repeat zero_fr 174) 9 false))
           (Proof.is_zk (Proof.mk (repeat zero_fr 174) 9 false))
  /\ concat (Proof.data (Proof.mk (repeat zero_fr 174) 9 false))
     = zero_bytes 5568
  /\ ((Proof.log_n (Proof.mk (repeat zero_fr 174) 9 false) = 17
       /\ Proof.is_zk (Proof.mk (repeat zero_fr 174) 9 false) = true)
      \/ 4 <= Proof.log_n (Proof.mk (repeat zero_fr 174) 9 false) < 30).
Proof.
  apply (validate_proof_structure_sound (zero_bytes 5568) 17 true).
  vm_compute. reflexivity.
Defined.
